(** * info-pulse: a shallow embedding of the collector and the summarizer

    The development follows [src/info_pulse/news_fetcher.py] and
    [src/info_pulse/summarizer.py].  Python values are modelled the way the
    code uses them:

    - a [str] is the list of its Unicode code points ([list Z]), so that
      [len], slicing and [str.strip] count characters and [str.encode]
      is the UTF-8 encoder written out below;
    - an exception is a value of [exn]; fallible code returns [pyresult];
    - the outside world (feed parser, HTTP client, clock, chat-completion
      endpoint) is an abstract state threaded through the calls;
    - [self.seen_ids] is a [gset] carried next to that state, a [dict] an
      association list in insertion order.

    The first part holds the definitions, the second part the properties,
    each with the claim it settles. *)

From Stdlib Require Import ZArith List Lia Bool String Ascii.
From Stdlib Require Import Floats.SpecFloat.
From Stdlib Require Import Sorting.Sorted.
From stdpp Require Import gmap list sorting.
Import ListNotations.
Local Open Scope Z_scope.

(** ** Python basics *)

Module Py.

(** A Python [str]: its code points, in order. *)
Abbreviation pystr := (list Z).

(** An ASCII literal as a Python [str]. *)
Definition str (s : string) : pystr :=
  map (fun a => Z.of_N (N_of_ascii a)) (list_ascii_of_string s).

(** The exception classes the two modules can meet. *)
Inductive exn : Set :=
| Exception
| TypeError
| ValueError
| OverflowError
| AttributeError
| KeyError
| IndexError
| OSError
| FileNotFoundError
| PermissionError
| IsADirectoryError
| UnicodeEncodeError
| JSONDecodeError
| YAMLError
| HTTPError.

Definition exn_eqb (a b : exn) : bool :=
  match a, b with
  | Exception, Exception | TypeError, TypeError | ValueError, ValueError
  | OverflowError, OverflowError | AttributeError, AttributeError
  | KeyError, KeyError | IndexError, IndexError | OSError, OSError
  | FileNotFoundError, FileNotFoundError | PermissionError, PermissionError
  | IsADirectoryError, IsADirectoryError
  | UnicodeEncodeError, UnicodeEncodeError
  | JSONDecodeError, JSONDecodeError | YAMLError, YAMLError
  | HTTPError, HTTPError => true
  | _, _ => false
  end.

(** The direct base class of each exception class ([Exception] is the root
    of everything an [except Exception] clause can see). *)
Definition base (e : exn) : option exn :=
  match e with
  | Exception => None
  | FileNotFoundError | PermissionError | IsADirectoryError => Some OSError
  | UnicodeEncodeError | JSONDecodeError => Some ValueError
  | _ => Some Exception
  end.

(** [isinstance e cls]: what an [except cls] clause tests.  The hierarchy
    above has depth three. *)
Definition isinstance (e cls : exn) : bool :=
  exn_eqb e cls ||
  match base e with
  | None => false
  | Some b =>
      exn_eqb b cls ||
      match base b with
      | None => false
      | Some b' => exn_eqb b' cls
      end
  end.

Inductive pyresult (A : Type) : Type :=
| Ok (a : A)
| Raise (e : exn).
Arguments Ok {A} a.
Arguments Raise {A} e.

Definition bind {A B} (m : pyresult A) (k : A -> pyresult B) : pyresult B :=
  match m with
  | Ok a => k a
  | Raise e => Raise e
  end.

(** A library call documented to raise [e] when it has no result. *)
Definition raising {A} (e : exn) (o : option A) : pyresult A :=
  match o with
  | Some a => Ok a
  | None => Raise e
  end.

(** [try: m  except classes: h] *)
Definition try_except {A} (m : pyresult A) (classes : list exn)
    (h : exn -> pyresult A) : pyresult A :=
  match m with
  | Ok a => Ok a
  | Raise e => if existsb (isinstance e) classes then h e else Raise e
  end.

(** [l[:n]] for a Python int [n] (a negative [n] counts from the end). *)
Definition slice_to {A} (l : list A) (n : Z) : list A :=
  if 0 <=? n then firstn (Z.to_nat n) l
  else firstn (length l - Z.to_nat (- n)) l.

(** [l[i:j]] for non-negative [i], [j]. *)
Definition slice {A} (l : list A) (i j : nat) : list A :=
  firstn (j - i) (skipn i l).

(** [range(0, stop, step)] for a positive [step]. *)
Definition range_step (stop step : nat) : list nat :=
  map (fun k => (k * step)%nat) (seq 0 ((stop + step - 1) / step)).

(** [str.isspace] on one character (the Unicode White_Space code points
    plus the four information separators, as CPython has them). *)
Definition isspace (c : Z) : bool :=
  ((9 <=? c) && (c <=? 13)) || ((28 <=? c) && (c <=? 32)) ||
  (c =? 133) || (c =? 160) || (c =? 5760) ||
  ((8192 <=? c) && (c <=? 8202)) || (c =? 8232) || (c =? 8233) ||
  (c =? 8239) || (c =? 8287) || (c =? 12288).

(** [s.strip()] *)
Fixpoint lstrip (s : pystr) : pystr :=
  match s with
  | c :: r => if isspace c then lstrip r else s
  | [] => []
  end.

Definition strip (s : pystr) : pystr := rev (lstrip (rev (lstrip s))).

End Py.

(** ** [hashlib.md5] (RFC 1321) and [str.encode] *)

Module Hashlib.
Import Py.

(** [str.encode()] (UTF-8, strict).  A lone surrogate cannot be encoded;
    values that are no code point at all are refused the same way. *)
Definition encode_char (c : Z) : pyresult (list Z) :=
  if (c <? 0) || (1114111 <? c) then Raise UnicodeEncodeError
  else if c <? 128 then Ok [c]
  else if c <? 2048 then
    Ok [Z.lor 192 (Z.shiftr c 6); Z.lor 128 (Z.land c 63)]
  else if (55296 <=? c) && (c <=? 57343) then Raise UnicodeEncodeError
  else if c <? 65536 then
    Ok [Z.lor 224 (Z.shiftr c 12);
        Z.lor 128 (Z.land (Z.shiftr c 6) 63);
        Z.lor 128 (Z.land c 63)]
  else
    Ok [Z.lor 240 (Z.shiftr c 18);
        Z.lor 128 (Z.land (Z.shiftr c 12) 63);
        Z.lor 128 (Z.land (Z.shiftr c 6) 63);
        Z.lor 128 (Z.land c 63)].

Fixpoint encode (s : pystr) : pyresult (list Z) :=
  match s with
  | [] => Ok []
  | c :: r =>
      bind (encode_char c) (fun bs =>
      bind (encode r) (fun rest => Ok (bs ++ rest)))
  end.

(** 32-bit words are [Z] with the wrap-around written out. *)
Definition w32 (x : Z) : Z := x mod 4294967296.
Definition add32 (x y : Z) : Z := w32 (x + y).
Definition not32 (x : Z) : Z := Z.lxor x 4294967295.
Definition rotl32 (x n : Z) : Z :=
  Z.lor (w32 (Z.shiftl x n)) (Z.shiftr x (32 - n)).

Definition sines : list Z :=
  [ 3614090360; 3905402710; 606105819; 3250441966;
    4118548399; 1200080426; 2821735955; 4249261313;
    1770035416; 2336552879; 4294925233; 2304563134;
    1804603682; 4254626195; 2792965006; 1236535329;
    4129170786; 3225465664; 643717713; 3921069994;
    3593408605; 38016083; 3634488961; 3889429448;
    568446438; 3275163606; 4107603335; 1163531501;
    2850285829; 4243563512; 1735328473; 2368359562;
    4294588738; 2272392833; 1839030562; 4259657740;
    2763975236; 1272893353; 4139469664; 3200236656;
    681279174; 3936430074; 3572445317; 76029189;
    3654602809; 3873151461; 530742520; 3299628645;
    4096336452; 1126891415; 2878612391; 4237533241;
    1700485571; 2399980690; 4293915773; 2240044497;
    1873313359; 4264355552; 2734768916; 1309151649;
    4149444226; 3174756917; 718787259; 3951481745 ].

Definition shifts : list Z :=
  [ 7; 12; 17; 22; 7; 12; 17; 22; 7; 12; 17; 22; 7; 12; 17; 22;
    5; 9; 14; 20; 5; 9; 14; 20; 5; 9; 14; 20; 5; 9; 14; 20;
    4; 11; 16; 23; 4; 11; 16; 23; 4; 11; 16; 23; 4; 11; 16; 23;
    6; 10; 15; 21; 6; 10; 15; 21; 6; 10; 15; 21; 6; 10; 15; 21 ].

Record state := State { sa : Z; sb : Z; sc : Z; sd : Z }.

Definition init : state :=
  State 1732584193 4023233417 2562383102 271733878.

(** One of the 64 steps on the block [m] (16 words). *)
Definition step (m : list Z) (st : state) (i : nat) : state :=
  let '(State a b c d) := st in
  let '(f, g) :=
    if (i <? 16)%nat then
      (Z.lor (Z.land b c) (Z.land (not32 b) d), i)
    else if (i <? 32)%nat then
      (Z.lor (Z.land d b) (Z.land (not32 d) c), ((5 * i + 1) mod 16)%nat)
    else if (i <? 48)%nat then
      (Z.lxor (Z.lxor b c) d, ((3 * i + 5) mod 16)%nat)
    else
      (Z.lxor c (Z.lor b (not32 d)), ((7 * i) mod 16)%nat) in
  let f' := add32 (add32 (add32 f a) (nth i sines 0)) (nth g m 0) in
  State d (add32 b (rotl32 f' (nth i shifts 0))) b c.

(** Little-endian bytes to a word and back. *)
Definition word_of_bytes (bs : list Z) : Z :=
  fold_right (fun b acc => b + 256 * acc) 0 bs.

Definition bytes_of_word (n : nat) (x : Z) : list Z :=
  map (fun k => Z.land (Z.shiftr x (8 * Z.of_nat k)) 255) (seq 0 n).

Definition words_of_block (blk : list Z) : list Z :=
  map (fun k => word_of_bytes (slice blk (4 * k) (4 * k + 4))) (seq 0 16).

Definition compress (st : state) (blk : list Z) : state :=
  let r := fold_left (step (words_of_block blk)) (seq 0 64) st in
  State (add32 (sa st) (sa r)) (add32 (sb st) (sb r))
        (add32 (sc st) (sc r)) (add32 (sd st) (sd r)).

(** Padding: a one bit, zeros up to 56 mod 64, the bit length on 8 bytes. *)
Definition pad (msg : list Z) : list Z :=
  let n := Z.of_nat (length msg) in
  msg ++ [128] ++ repeat 0 (Z.to_nat ((55 - n) mod 64))
      ++ bytes_of_word 8 ((8 * n) mod 18446744073709551616).

Definition blocks (p : list Z) : list (list Z) :=
  map (fun k => slice p (64 * k) (64 * k + 64)) (seq 0 (length p / 64)).

Definition digest (msg : list Z) : list Z :=
  let st := fold_left compress (blocks (pad msg)) init in
  bytes_of_word 4 (sa st) ++ bytes_of_word 4 (sb st) ++
  bytes_of_word 4 (sc st) ++ bytes_of_word 4 (sd st).

Definition hexdigit (n : Z) : Z := if n <? 10 then 48 + n else 87 + n.

Definition hex_of_byte (b : Z) : pystr :=
  [hexdigit (Z.shiftr b 4); hexdigit (Z.land b 15)].

(** [hashlib.md5(data).hexdigest()] *)
Definition md5_hexdigest (data : list Z) : pystr :=
  flat_map hex_of_byte (digest data).

End Hashlib.

(** ** [datetime] *)

Module Datetime.
Import Py.

(** A [datetime]: microseconds since 0001-01-01T00:00:00, read in UTC when
    the value is timezone-aware and on the wall clock when it is naive. *)
Record datetime := mkdt { instant : Z; aware : bool }.

Definition is_leap (y : Z) : bool :=
  (y mod 4 =? 0) && (negb (y mod 100 =? 0) || (y mod 400 =? 0)).

Definition days_in_month (y m : Z) : Z :=
  if m =? 2 then (if is_leap y then 29 else 28)
  else if (m =? 4) || (m =? 6) || (m =? 9) || (m =? 11) then 30
  else 31.

Definition days_before_year (y : Z) : Z :=
  let y1 := y - 1 in y1 * 365 + y1 / 4 - y1 / 100 + y1 / 400.

Definition days_before_month (y m : Z) : Z :=
  fold_right Z.add 0
    (map (fun k => days_in_month y (Z.of_nat k)) (seq 1 (Z.to_nat (m - 1)))).

(** The proleptic Gregorian ordinal, 0001-01-01 being day 1. *)
Definition ymd2ord (y m d : Z) : Z :=
  days_before_year y + days_before_month y m + d.

Definition usec_per_day : Z := 86400000000.

Definition c_int (x : Z) : bool := (-2147483648 <=? x) && (x <=? 2147483647).

(** [datetime] applied to the unpacked tuple [t] of at most six ints, with
    [tzinfo=timezone.utc].  The arguments are converted in order before the
    count is looked at: an argument beyond a C int is an [OverflowError]
    also when fewer than three are given; otherwise too few arguments is a
    [TypeError] and a field out of its range a [ValueError]. *)
Definition datetime_utc (t : list Z) : pyresult datetime :=
  if negb (forallb c_int t) then Raise OverflowError
  else
    match t with
    | y :: m :: d :: rest =>
        let hh := nth 0 rest 0 in
        let mi := nth 1 rest 0 in
        let ss := nth 2 rest 0 in
        if negb ((1 <=? y) && (y <=? 9999)) then Raise ValueError
        else if negb ((1 <=? m) && (m <=? 12)) then Raise ValueError
        else if negb ((1 <=? d) && (d <=? days_in_month y m))
        then Raise ValueError
        else if negb ((0 <=? hh) && (hh <=? 23)) then Raise ValueError
        else if negb ((0 <=? mi) && (mi <=? 59)) then Raise ValueError
        else if negb ((0 <=? ss) && (ss <=? 59)) then Raise ValueError
        else
          Ok (mkdt (((ymd2ord y m d - 1) * 86400 + hh * 3600 + mi * 60 + ss)
                    * 1000000) true)
    | _ => Raise TypeError
    end.

(** [dt.replace(tzinfo=timezone.utc)] *)
Definition replace_utc (dt : datetime) : datetime := mkdt (instant dt) true.

(** The largest instant a [datetime] can hold (9999-12-31T23:59:59.999999). *)
Definition max_instant : Z := 3652059 * usec_per_day - 1.

(** [dt - timedelta(days=k)]: the [timedelta] constructor refuses more than
    999999999 days, the subtraction a result outside years 1..9999. *)
Definition sub_days (dt : datetime) (k : Z) : pyresult datetime :=
  if negb ((-999999999 <=? k) && (k <=? 999999999)) then Raise OverflowError
  else
    let r := instant dt - k * usec_per_day in
    if negb ((0 <=? r) && (r <=? max_instant)) then Raise OverflowError
    else Ok (mkdt r (aware dt)).

(** [a >= b]: ordering a naive against an aware [datetime] is a
    [TypeError]. *)
Definition ge (a b : datetime) : pyresult bool :=
  if eqb (aware a) (aware b) then Ok (instant b <=? instant a)
  else Raise TypeError.

End Datetime.

(** ** Values that [json.loads] returns *)

Module Json.
Import Py.

#[local] Unset Elimination Schemes.
Inductive pyval : Type :=
| PyNone
| PyBool (b : bool)
| PyInt (n : Z)
| PyFloat (f : spec_float)
| PyStr (s : pystr)
| PyList (l : list pyval)
| PyDict (d : list (pystr * pyval)).
#[local] Set Elimination Schemes.

Definition pystr_eqb (a b : pystr) : bool := bool_decide (a = b).

(** [d.get(k)] on the items of a dict, [None] when the key is absent. *)
Fixpoint lookup (k : pystr) (d : list (pystr * pyval)) : option pyval :=
  match d with
  | [] => None
  | (k', v) :: r => if pystr_eqb k k' then Some v else lookup k r
  end.

(** [v.get(k, dflt)]: only a dict has [get]. *)
Definition get (v : pyval) (k : pystr) (dflt : pyval) : pyresult pyval :=
  match v with
  | PyDict d => Ok (default dflt (lookup k d))
  | _ => Raise AttributeError
  end.

(** [for item in v]: the items a [for] loop visits. *)
Definition iter (v : pyval) : pyresult (list pyval) :=
  match v with
  | PyList l => Ok l
  | PyDict d => Ok (map (fun kv => PyStr (fst kv)) d)
  | PyStr s => Ok (map (fun c => PyStr [c]) s)
  | _ => Raise TypeError
  end.

(** binary64 *)
Definition float_of_Z (n : Z) : spec_float := binary_normalize 53 1024 n 0 false.

(** [v - 1] *)
Definition sub1 (v : pyval) : pyresult pyval :=
  match v with
  | PyInt n => Ok (PyInt (n - 1))
  | PyBool b => Ok (PyInt ((if b then 1 else 0) - 1))
  | PyFloat f => Ok (PyFloat (SFsub 53 1024 f (float_of_Z 1)))
  | _ => Raise TypeError
  end.

(** [0 <= idx < n] for the result [idx] of [sub1] and a length [n]. *)
Definition in_range (idx : pyval) (n : nat) : bool :=
  match idx with
  | PyInt i => (0 <=? i) && (i <? Z.of_nat n)
  | PyFloat f =>
      SFleb (float_of_Z 0) f && SFltb f (float_of_Z (Z.of_nat n))
  | _ => false
  end.

(** [l[idx]] once [0 <= idx < len(l)] holds: a float is no index. *)
Definition index {A} (l : list A) (idx : pyval) : pyresult A :=
  match idx with
  | PyInt i =>
      match nth_error l (Z.to_nat i) with
      | Some a => Ok a
      | None => Raise IndexError
      end
  | _ => Raise TypeError
  end.

End Json.

(** ** [news_fetcher.py] *)

Module NewsFetcher.
Import Py Datetime.

(** *** [Article] *)

Record Article := mkArticle {
  title : pystr;
  link : pystr;
  source : pystr;
  published : datetime;
  summary : pystr;
  ai_summary : pystr;
  topic : pystr;
  id : pystr
}.

(** The fingerprint [hashlib.md5(content.encode()).hexdigest()[:12]] of
    [content = title + link]. *)
Definition fingerprint (title link : pystr) : pyresult pystr :=
  bind (Hashlib.encode (title ++ link)) (fun content =>
  Ok (slice_to (Hashlib.md5_hexdigest content) 12)).

(** [Article.__post_init__]: [if not self.id: self.id = ...] *)
Definition __post_init__ (self : Article) : pyresult Article :=
  match id self with
  | [] =>
      bind (fingerprint (title self) (link self)) (fun i =>
      Ok (mkArticle (title self) (link self) (source self) (published self)
                    (summary self) (ai_summary self) (topic self) i))
  | _ :: _ => Ok self
  end.

(** The dataclass constructor: the generated [__init__] stores the fields
    and calls [__post_init__]. *)
Definition new_Article (title link source : pystr) (published : datetime)
    (summary ai_summary topic id : pystr) : pyresult Article :=
  __post_init__
    (mkArticle title link source published summary ai_summary topic id).

(** *** Feed entries, as [feedparser] hands them over

    A date tuple is absent or [None] ([None] here) or a tuple of ints; a
    text field is absent ([None] here) or a [str]; [content] is a list of
    dicts whose ["value"] may be missing. *)

Inductive date_field := published_parsed | updated_parsed | created_parsed.
Inductive date_str_field := published_str | updated_str | created_str.
Inductive summary_field := summary_f | description_f | content_f.

Inductive field_value :=
| FStr (s : pystr)
| FList (l : list (option pystr)).

Record Entry := mkEntry {
  entry_title : option pystr;
  entry_link : option pystr;
  entry_date : date_field -> option (list Z);
  entry_date_str : date_str_field -> option pystr;
  entry_summary : option pystr;
  entry_description : option pystr;
  entry_content : option (list (option pystr))
}.

Definition entry_field (entry : Entry) (f : summary_field)
    : option field_value :=
  match f with
  | summary_f => FStr <$> entry_summary entry
  | description_f => FStr <$> entry_description entry
  | content_f => FList <$> entry_content entry
  end.

(** A loop whose body may [return]: [Ok (Some v)] is [return v], [Ok None]
    is falling through to the next iteration. *)
Fixpoint for_return {X A} (xs : list X) (body : X -> pyresult (option A))
    : pyresult (option A) :=
  match xs with
  | [] => Ok None
  | x :: rest =>
      match body x with
      | Ok None => for_return rest body
      | r => r
      end
  end.

(** *** [_extract_summary] *)

(** [re.sub] of the pattern [<[^>]+>] by the empty string.  [tag_rest r]
    counts the characters other than [>] in front of the first [>] of [r];
    a tag starts at a [<] that is followed by at least one such character
    and then a [>]. *)
Fixpoint tag_rest (r : pystr) : option nat :=
  match r with
  | [] => None
  | c :: r' => if c =? 62 then Some O else S <$> tag_rest r'
  end.

Fixpoint strip_tags_from (skip : nat) (s : pystr) : pystr :=
  match s with
  | [] => []
  | c :: r =>
      match skip with
      | S k => strip_tags_from k r
      | O =>
          if c =? 60 then
            match tag_rest r with
            | Some (S k) => strip_tags_from (S (S k)) r
            | _ => c :: strip_tags_from O r
            end
          else c :: strip_tags_from O r
      end
  end.

Definition strip_tags (s : pystr) : pystr := strip_tags_from O s.

Definition _extract_summary (entry : Entry) : pystr :=
  let body (f : summary_field) : pyresult (option pystr) :=
    match entry_field entry f with
    | Some content =>
        let content :=
          match content with
          | FList (c0 :: _) => FStr (default [] c0)
          | _ => content
          end in
        match content with
        | FStr ((_ :: _) as text) =>
            let clean := strip_tags text in
            Ok (Some (if (500 <? length clean)%nat
                      then slice_to clean 500 else clean))
        | _ => Ok None
        end
    | None => Ok None
    end in
  match for_return [summary_f; description_f; content_f] body with
  | Ok (Some s) => s
  | _ => []
  end.

(** *** [_parse_published_date] *)

Definition isupper_ascii (c : Z) : bool := (65 <=? c) && (c <=? 90).

Fixpoint span (p : Z -> bool) (s : pystr) : pystr * pystr :=
  match s with
  | c :: r => if p c then let (a, b) := span p r in (c :: a, b) else ([], s)
  | [] => ([], [])
  end.

(** [re.sub] of the pattern [\s+[A-Z]{3,4}$] by the empty string.  The
    pattern is anchored at the end of [s], or just in front of a final
    newline; it takes the whole run of white space in front of three or
    four capitals. *)
Definition strip_tz_abbrev (s : pystr) : pystr :=
  let r := rev s in
  let '(tail, body) :=
    match r with
    | 10 :: r' => ([10], r')
    | _ => ([], r)
    end in
  let try_at (tail body : pystr) : option pystr :=
    let (caps, front) := span isupper_ascii body in
    let n := length caps in
    match front with
    | c :: _ =>
        if ((n =? 3)%nat || (n =? 4)%nat) && isspace c
        then Some (rev (snd (span isspace front)) ++ tail)
        else None
    | [] => None
    end in
  match try_at tail body with
  | Some s' => s'
  | None => s
  end.

Definition date_formats : list pystr :=
  [ str "%a, %d %b %Y %H:%M:%S %z";
    str "%Y-%m-%dT%H:%M:%S%z";
    str "%Y-%m-%dT%H:%M:%SZ";
    str "%a, %d %b %Y %H:%M:%S" ].

(** *** NewsAPI items and the topics configuration *)

(** A JSON member holding text: missing, [null] or a string. *)
Inductive jstr := Absent | Null | Str (s : pystr).

(** The ["source"] member: missing, [null], or an object whose ["name"]
    may be missing. *)
Inductive jsource := SrcAbsent | SrcNull | SrcObj (name : option pystr).

Record Item := mkItem {
  item_title : jstr;
  item_url : jstr;
  item_publishedAt : jstr;
  item_source : jsource;
  item_description : jstr
}.

Record Feed := mkFeed { feed_url : option pystr; feed_name : option pystr }.

Record Topic := mkTopic {
  topic_name : option pystr;
  keywords : list pystr;
  rss_feeds : list Feed
}.

Record Settings := mkSettings {
  max_articles_per_topic : option Z;
  keep_days : option Z
}.

Record Config := mkConfig { topics : list Topic; settings : Settings }.

(** [{"topics": [], "settings": {}}] *)
Definition empty_config : Config := mkConfig [] (mkSettings None None).

(** The configuration as [yaml.safe_load] leaves it.  [fetch_all] reads it
    with [.get(key, default)]: a key of the file can be missing, in which
    case the default is taken, or hold [null], in which case [None] comes
    back, or hold a value.  This is modelled for the keys [settings] and
    [topics] of the file and for the two keys of [settings]; the topics
    listed stay the typed records above.  An empty file loads as [None].
    [Config] above is the case where none of these keys holds [null]. *)
Inductive field (A : Type) : Type :=
| Missing
| NullValue
| Val (a : A).
Arguments Missing {A}.
Arguments NullValue {A}.
Arguments Val {A} a.

(** [d.get(key, default)]; [None] is Python's [None]. *)
Definition field_get {A} (f : field A) (default : A) : option A :=
  match f with
  | Missing => Some default
  | NullValue => None
  | Val a => Some a
  end.

Record LoadedSettings := mkLoadedSettings {
  loaded_max_articles_per_topic : field Z;
  loaded_keep_days : field Z
}.

Record LoadedConfig := mkLoadedConfig {
  loaded_topics : field (list Topic);
  loaded_settings : field LoadedSettings
}.

Definition field_of_option {A} (o : option A) : field A :=
  match o with
  | Some a => Val a
  | None => Missing
  end.

(** A [Config] as a loaded configuration: every key it has holds a value. *)
Definition load (config : Config) : LoadedConfig :=
  mkLoadedConfig
    (Val (topics config))
    (Val (mkLoadedSettings
            (field_of_option (max_articles_per_topic (settings config)))
            (field_of_option (keep_days (settings config))))).

(** A [dict] keeps its keys in insertion order; [d[k] = v] replaces the
    value of a key that is present and appends otherwise. *)
Fixpoint dict_set {V} (d : list (pystr * V)) (k : pystr) (v : V)
    : list (pystr * V) :=
  match d with
  | [] => [(k, v)]
  | (k', v') :: r =>
      if bool_decide (k = k') then (k, v) :: r else (k', v') :: dict_set r k v
  end.

(** [sep.join(l)] *)
Fixpoint join (sep : pystr) (l : list pystr) : pystr :=
  match l with
  | [] => []
  | [x] => x
  | x :: r => x ++ sep ++ join sep r
  end.

(** [sub in s] *)
Fixpoint is_prefix (p s : pystr) : bool :=
  match p, s with
  | [], _ => true
  | a :: p', b :: s' => (a =? b) && is_prefix p' s'
  | _ :: _, [] => false
  end.

Fixpoint contains (sub s : pystr) : bool :=
  is_prefix sub s ||
  match s with
  | [] => false
  | _ :: r => contains sub r
  end.

(** [s.replace("Z", "+00:00")] *)
Definition replace_Z (s : pystr) : pystr :=
  flat_map (fun c => if c =? 90 then str "+00:00" else [c]) s.

(** [topic_articles.sort(key=lambda x: x.published, reverse=True)]: a stable
    sort, newest first; among equal keys the original order stays.  It runs
    on what the comparison with the aware cutoff has let through, so every
    key is aware and keys compare by their instants. *)
Fixpoint insert_desc (a : Article) (l : list Article) : list Article :=
  match l with
  | [] => [a]
  | b :: r =>
      if instant (published a) <? instant (published b)
      then b :: insert_desc a r
      else a :: l
  end.

Definition sort_published_desc (l : list Article) : list Article :=
  fold_right insert_desc [] l.

(** [[a for a in topic_articles if a.published >= cutoff_date]] *)
Fixpoint filter_recent (cutoff : datetime) (l : list Article)
    : pyresult (list Article) :=
  match l with
  | [] => Ok []
  | a :: r =>
      bind (ge (published a) cutoff) (fun keep =>
      bind (filter_recent cutoff r) (fun r' =>
      Ok (if keep then a :: r' else r')))
  end.

(** *** The fetcher, over an abstract outside world *)

Section Fetcher.

Variable World : Type.
(** [datetime.now(timezone.utc)], as an instant. *)
Variable clock : World -> Z * World.
(** [feedparser.parse(url).entries], or the exception it raised. *)
Variable feedparser_parse : pystr -> World -> pyresult (list Entry) * World.
(** The ["articles"] of the NewsAPI answer to a query with a key, or the
    exception raised on the way (network, HTTP status, body). *)
Variable newsapi_get :
  pystr -> pystr -> World -> pyresult (list Item) * World.
(** [datetime.strptime] and [datetime.fromisoformat] on a [str]: the parsed
    value, or [None] here for the [ValueError] they raise on a mismatch. *)
Variable strptime : pystr -> pystr -> option datetime.
Variable fromisoformat : pystr -> option datetime.
Variable urlparse : pystr -> pyresult unit.

(** The mutable state of a run: the world and [self.seen_ids]. *)
Record St := mkSt { world : World; seen_ids : gset pystr }.

Definition M (A : Type) : Type := St -> pyresult A * St.

Definition ret {A} (a : A) : M A := fun st => (Ok a, st).

Definition lift {A} (r : pyresult A) : M A := fun st => (r, st).

Definition mbind {A B} (m : M A) (k : A -> M B) : M B :=
  fun st =>
    match m st with
    | (Ok a, st') => k a st'
    | (Raise e, st') => (Raise e, st')
    end.

Notation "x <- m ;; k" := (mbind m (fun x => k))
  (at level 100, m at next level, right associativity).

Definition now : M datetime :=
  fun st =>
    let (t, w) := clock (world st) in (Ok (mkdt t true), mkSt w (seen_ids st)).

(** [_clean_google_news_url]: both branches return [url]; the first one
    parses it on the way. *)
Definition _clean_google_news_url (url : pystr) : pyresult pystr :=
  if contains (str "news.google.com") url
  then bind (urlparse url) (fun _ => Ok url)
  else Ok url.

Definition parsed_body (entry : Entry) (f : date_field)
    : pyresult (option datetime) :=
  match entry_date entry f with
  | Some ((_ :: _) as t) =>
      try_except
        (bind (datetime_utc (slice_to t 6)) (fun dt => Ok (Some dt)))
        [TypeError; ValueError]
        (fun _ => Ok None)
  | _ => Ok None
  end.

Definition format_body (date_str fmt : pystr) : pyresult (option datetime) :=
  try_except
    (bind (raising ValueError (strptime date_str fmt)) (fun dt =>
     Ok (Some (if aware dt then dt else replace_utc dt))))
    [ValueError]
    (fun _ => Ok None).

Definition string_body (entry : Entry) (f : date_str_field)
    : pyresult (option datetime) :=
  match entry_date_str entry f with
  | Some ((_ :: _) as s) =>
      try_except
        (for_return date_formats (format_body (strip_tz_abbrev s)))
        [Exception]
        (fun _ => Ok None)
  | _ => Ok None
  end.

Definition _parse_published_date (entry : Entry) : M datetime :=
  r <- lift (for_return [published_parsed; updated_parsed; created_parsed]
               (parsed_body entry));;
  match r with
  | Some dt => ret dt
  | None =>
      r <- lift (for_return [published_str; updated_str; created_str]
                   (string_body entry));;
      match r with
      | Some dt => ret dt
      | None => now
      end
  end.

(** [if article.id not in self.seen_ids: self.seen_ids.add(article.id);
    articles.append(article)]: [Some article] when it is appended. *)
Definition dedup (article : Article) : M (option Article) :=
  fun st =>
    if bool_decide (id article ∈ seen_ids st) then (Ok None, st)
    else (Ok (Some article), mkSt (world st) ({[id article]} ∪ seen_ids st)).

(** A loop that appends to [articles] inside a [try]: an exception ends
    the loop and leaves what has been appended. *)
Fixpoint for_append {X} (body : X -> M (option Article)) (xs : list X)
    (articles : list Article) (st : St) : list Article * St :=
  match xs with
  | [] => (articles, st)
  | x :: rest =>
      match body x st with
      | (Ok (Some a), st') => for_append body rest (articles ++ [a]) st'
      | (Ok None, st') => for_append body rest articles st'
      | (Raise _, st') => (articles, st')
      end
  end.

Definition rss_entry (feed_name topic_name : pystr) (entry : Entry)
    : M (option Article) :=
  let title := strip (default [] (entry_title entry)) in
  let link := default [] (entry_link entry) in
  match title, link with
  | _ :: _, _ :: _ =>
      link <- lift (_clean_google_news_url link);;
      published <- _parse_published_date entry;;
      article <- lift (new_Article title link feed_name published
                         (_extract_summary entry) [] topic_name []);;
      dedup article
  | _, _ => ret None
  end.

Definition fetch_rss_feed (feed_url feed_name topic_name : pystr) (st : St)
    : list Article * St :=
  match feedparser_parse feed_url (world st) with
  | (Ok entries, w) =>
      for_append (rss_entry feed_name topic_name) (slice_to entries 20) []
        (mkSt w (seen_ids st))
  | (Raise _, w) => ([], mkSt w (seen_ids st))
  end.

Definition api_item (topic_name : pystr) (item : Item) : M (option Article) :=
  title <- lift (match item_title item with
                 | Absent => Ok []
                 | Str s => Ok (strip s)
                 | Null => Raise AttributeError
                 end);;
  let link := match item_url item with Str s => s | _ => [] end in
  match title, link with
  | _ :: _, _ :: _ =>
      if bool_decide (title = str "[Removed]") then ret None
      else
        pub_date <- now;;
        pub_date <- lift (match item_publishedAt item with
                          | Str ((_ :: _) as s) =>
                              try_except
                                (raising ValueError
                                   (fromisoformat (replace_Z s)))
                                [ValueError] (fun _ => Ok pub_date)
                          | _ => Ok pub_date
                          end);;
        source <- lift (match item_source item with
                        | SrcAbsent => Ok (str "NewsAPI")
                        | SrcObj name => Ok (default (str "NewsAPI") name)
                        | SrcNull => Raise AttributeError
                        end);;
        summary <- lift (match item_description item with
                         | Absent => Ok []
                         | Str s => Ok (slice_to s 500)
                         | Null => Raise TypeError
                         end);;
        article <- lift (new_Article title link source pub_date summary
                           [] topic_name []);;
        dedup article
  | _, _ => ret None
  end.

Definition fetch_news_api (news_api_key : option pystr)
    (keywords : list pystr) (topic_name : pystr) (st : St)
    : list Article * St :=
  match news_api_key with
  | Some ((_ :: _) as key) =>
      let query := join (str " OR ") (slice_to keywords 3) in
      match newsapi_get query key (world st) with
      | (Ok items, w) =>
          for_append (api_item topic_name) items [] (mkSt w (seen_ids st))
      | (Raise _, w) => ([], mkSt w (seen_ids st))
      end
  | _ => ([], st)
  end.

(** The feeds of one topic, in listed order. *)
Fixpoint fetch_feeds (topic_name : pystr) (feeds : list Feed)
    (topic_articles : list Article) (st : St) : list Article * St :=
  match feeds with
  | [] => (topic_articles, st)
  | feed :: rest =>
      match default [] (feed_url feed) with
      | (_ :: _) as url =>
          let (articles, st') :=
            fetch_rss_feed url (default (str "Unknown") (feed_name feed))
              topic_name st in
          fetch_feeds topic_name rest (topic_articles ++ articles) st'
      | [] => fetch_feeds topic_name rest topic_articles st
      end
  end.

(** What one topic collects before the filter: its feeds, then the NewsAPI
    fallback when fewer than five articles came and keywords exist. *)
Definition collect_topic (news_api_key : option pystr) (t : Topic) (st : St)
    : list Article * St :=
  let name := default (str "Unknown") (topic_name t) in
  let (topic_articles, st1) := fetch_feeds name (rss_feeds t) [] st in
  match keywords t with
  | _ :: _ =>
      if (length topic_articles <? 5)%nat then
        let (api_articles, st2) :=
          fetch_news_api news_api_key (keywords t) name st1 in
        (topic_articles ++ api_articles, st2)
      else (topic_articles, st1)
  | [] => (topic_articles, st1)
  end.

(** Filter by date, sort, cut. *)
Definition post_process (cutoff : datetime) (max_articles : Z)
    (topic_articles : list Article) : pyresult (list Article) :=
  bind (filter_recent cutoff topic_articles) (fun kept =>
  Ok (slice_to (sort_published_desc kept) max_articles)).

Fixpoint fetch_topics (news_api_key : option pystr) (cutoff : datetime)
    (max_articles : Z) (ts : list Topic)
    (results : list (pystr * list Article)) : M (list (pystr * list Article)) :=
  match ts with
  | [] => ret results
  | t :: rest =>
      fun st =>
        let (topic_articles, st') := collect_topic news_api_key t st in
        match post_process cutoff max_articles topic_articles with
        | Ok final =>
            fetch_topics news_api_key cutoff max_articles rest
              (dict_set results (default (str "Unknown") (topic_name t)) final)
              st'
        | Raise e => (Raise e, st')
        end
  end.

Definition fetch_all (news_api_key : option pystr) (config : Config)
    : M (list (pystr * list Article)) :=
  let max_articles := default 10 (max_articles_per_topic (settings config)) in
  let keep_days := default 2 (keep_days (settings config)) in
  t <- now;;
  cutoff_date <- lift (sub_days t keep_days);;
  fetch_topics news_api_key cutoff_date max_articles (topics config) [].

(** [fetch_all] on the configuration as loaded.  [None.get] is an
    [AttributeError]; [timedelta(days=None)] is a [TypeError], raised after
    [datetime.now] was called; [for topic in None] is a [TypeError];
    [topic_articles[:None]] is the whole list. *)
Definition post_process_loaded (cutoff : datetime) (max_articles : option Z)
    (topic_articles : list Article) : pyresult (list Article) :=
  bind (filter_recent cutoff topic_articles) (fun kept =>
  Ok (match max_articles with
      | Some n => slice_to (sort_published_desc kept) n
      | None => sort_published_desc kept
      end)).

Fixpoint fetch_topics_loaded (news_api_key : option pystr) (cutoff : datetime)
    (max_articles : option Z) (ts : list Topic)
    (results : list (pystr * list Article)) : M (list (pystr * list Article)) :=
  match ts with
  | [] => ret results
  | t :: rest =>
      fun st =>
        let (topic_articles, st') := collect_topic news_api_key t st in
        match post_process_loaded cutoff max_articles topic_articles with
        | Ok final =>
            fetch_topics_loaded news_api_key cutoff max_articles rest
              (dict_set results (default (str "Unknown") (topic_name t)) final)
              st'
        | Raise e => (Raise e, st')
        end
  end.

Definition fetch_all_loaded (news_api_key : option pystr)
    (topics_config : option LoadedConfig)
    : M (list (pystr * list Article)) :=
  match topics_config with
  | None => lift (Raise AttributeError)
  | Some config =>
      match
        field_get (loaded_settings config) (mkLoadedSettings Missing Missing)
      with
      | None => lift (Raise AttributeError)
      | Some settings =>
          let max_articles :=
            field_get (loaded_max_articles_per_topic settings) 10 in
          let keep_days := field_get (loaded_keep_days settings) 2 in
          t <- now;;
          cutoff_date <- lift (match keep_days with
                               | Some k => sub_days t k
                               | None => Raise TypeError
                               end);;
          match field_get (loaded_topics config) [] with
          | Some ts =>
              fetch_topics_loaded news_api_key cutoff_date max_articles ts []
          | None => lift (Raise TypeError)
          end
      end
  end.

(** [_load_topics], given what [open] and [yaml.safe_load] did. *)
Definition _load_topics (loaded : pyresult Config) : pyresult Config :=
  try_except loaded [FileNotFoundError] (fun _ => Ok empty_config).

(** [total_articles] of [main]. *)
Definition total_articles (by_topic : list (pystr * list Article)) : nat :=
  fold_right Nat.add O (map (fun kv => length (snd kv)) by_topic).

(** A computation that leaves [seen_ids] as it is. *)
Definition keeps_seen {A} (m : M A) : Prop :=
  forall st r st', m st = (r, st') -> seen_ids st' = seen_ids st.

(** A loop body that appends at most one Article, and only one whose id
    was not in [seen_ids] and now is. *)
Definition appends_fresh (m : M (option Article)) : Prop :=
  forall st r st',
    m st = (r, st') ->
    (seen_ids st ⊆ seen_ids st') /\
    forall a, r = Ok (Some a) ->
              (id a ∉ seen_ids st) /\ (id a ∈ seen_ids st').

End Fetcher.

Arguments mkSt {World} world seen_ids.
Arguments world {World} s.
Arguments seen_ids {World} s.

End NewsFetcher.

(** ** [summarizer.py] *)

Module Summarizer.
Import Py Json.
Import NewsFetcher(Article, title, summary, dict_set).

(** The three generated fields hold whatever the decoded JSON holds. *)
Record SummarizedArticle := mkSummarized {
  original : Article;
  ai_title : pyval;
  ai_summary : pyval;
  key_points : pyval
}.

(** What one chat-completion request comes to, up to [json.loads]. *)
Inductive response :=
| CallRaised (e : exn)
    (** [create(...)] or [response.choices[0].message.content] raised *)
| NoContent
    (** [content] is [None] or the empty string *)
| Content (loaded : pyresult pyval)
    (** [content] is non-empty; what [json.loads(content)] did *).

(** The degrade path: [for article in batch: summarized.append(...)] with
    the original title and summary and no key points. *)
Definition fallback (batch : list Article) : list SummarizedArticle :=
  map (fun article =>
         mkSummarized article (PyStr (title article))
           (PyStr (summary article)) (PyList []))
      batch.

(** One element of the response: [Some] of what is appended. *)
Definition item_step (batch : list Article) (item : pyval)
    : pyresult (option SummarizedArticle) :=
  bind (get item (str "index") (PyInt 1)) (fun v =>
  bind (sub1 v) (fun idx =>
  if in_range idx (length batch) then
    bind (index batch idx) (fun a =>
    bind (get item (str "title") (PyStr (title a))) (fun t =>
    bind (get item (str "summary") (PyStr [])) (fun s =>
    bind (get item (str "key_points") (PyList [])) (fun k =>
    Ok (Some (mkSummarized a t s k))))))
  else Ok None)).

(** The loop over the elements appends to [summarized]; an exception leaves
    what has been appended. *)
Fixpoint items_loop (batch : list Article) (items : list pyval)
    (summarized : list SummarizedArticle)
    : list SummarizedArticle * option exn :=
  match items with
  | [] => (summarized, None)
  | item :: rest =>
      match item_step batch item with
      | Ok (Some sa) => items_loop batch rest (summarized ++ [sa])
      | Ok None => items_loop batch rest summarized
      | Raise e => (summarized, Some e)
      end
  end.

(** The body of the inner [try], after [json.loads]. *)
Definition parse_response (batch : list Article) (data : pyval)
    (summarized : list SummarizedArticle)
    : list SummarizedArticle * option exn :=
  match bind (get data (str "articles") (PyList [])) iter with
  | Ok items => items_loop batch items summarized
  | Raise e => (summarized, Some e)
  end.

(** One batch: the body of the [for] loop of [summarize_batch], given the
    response.  Both handlers append the fallback of the whole batch. *)
Definition summarize_one (batch : list Article) (r : response)
    (summarized : list SummarizedArticle) : list SummarizedArticle :=
  match r with
  | CallRaised _ => summarized ++ fallback batch
  | NoContent => summarized
  | Content loaded =>
      let '(summarized, err) :=
        match loaded with
        | Ok data => parse_response batch data summarized
        | Raise e => (summarized, Some e)
        end in
      match err with
      | None => summarized
      | Some e =>
          if isinstance e JSONDecodeError
          then summarized ++ fallback batch   (* except json.JSONDecodeError *)
          else summarized ++ fallback batch   (* except Exception *)
      end
  end.

(** [str(n)] for a count [n]: its decimal digits. *)
Fixpoint digits (fuel n : nat) (acc : pystr) : pystr :=
  match fuel with
  | O => acc
  | S fuel' =>
      let acc' := (48 + Z.of_nat (n mod 10)) :: acc in
      if (n <? 10)%nat then acc' else digits fuel' (n / 10) acc'
  end.

Definition decimal (n : nat) : pystr := digits (S n) n [].

Definition quote : pystr := [34].
Definition newline : pystr := [10].

(** Every line followed by a newline. *)
Definition unlines (ls : list pystr) : pystr :=
  flat_map (fun l => l ++ newline) ls.

(** [article.summary[:300] if article.summary else 'No summary available'] *)
Definition excerpt (article : Article) : pystr :=
  match summary article with
  | [] => str "No summary available"
  | _ :: _ => slice_to (summary article) 300
  end.

(** What one round of the loop of [_create_prompt] adds to
    [articles_text], [i] being the number [enumerate] gives. *)
Definition article_block (i : nat) (article : Article) : pystr :=
  newline ++
  unlines [ str "Article " ++ decimal i ++ str ":";
            str "Title: " ++ title article;
            str "Source: " ++ NewsFetcher.source article;
            str "Summary: " ++ excerpt article;
            str "---" ].

(** [for i, article in enumerate(articles, 1): articles_text += ...] *)
Fixpoint articles_text_from (i : nat) (articles : list Article) : pystr :=
  match articles with
  | [] => []
  | article :: rest =>
      article_block i article ++ articles_text_from (S i) rest
  end.

Definition prompt_head : pystr :=
  unlines
    [ str "You are a sports news analyst specializing in NBA basketball, particularly the Los Angeles Lakers.";
      [];
      str "Summarize the following news articles. For each article, provide:";
      str "1. A concise, engaging title (keep original if already good)";
      str "2. A 2-3 sentence summary highlighting the key points";
      str "3. 2-3 bullet points with the most important takeaways";
      [];
      str "Focus on facts, avoid speculation, and maintain a neutral tone.";
      [] ].

Definition prompt_tail : pystr :=
  unlines
    [ [];
      [];
      str "Respond in JSON format:";
      str "{";
      str "  " ++ quote ++ str "articles" ++ quote ++ str ": [";
      str "    {";
      str "      " ++ quote ++ str "index" ++ quote ++ str ": 1,";
      str "      " ++ quote ++ str "title" ++ quote ++ str ": "
        ++ quote ++ str "Concise title" ++ quote ++ str ",";
      str "      " ++ quote ++ str "summary" ++ quote ++ str ": "
        ++ quote ++ str "2-3 sentence summary" ++ quote ++ str ",";
      str "      " ++ quote ++ str "key_points" ++ quote ++ str ": ["
        ++ quote ++ str "Point 1" ++ quote ++ str ", "
        ++ quote ++ str "Point 2" ++ quote ++ str ", "
        ++ quote ++ str "Point 3" ++ quote ++ str "]";
      str "    }";
      str "  ]";
      str "}" ].

Definition _create_prompt (articles : list Article) : pystr :=
  prompt_head ++ articles_text_from 1 articles ++ prompt_tail.

Section Summarizer.

Variable World : Type.
(** The chat-completion endpoint, asked with the prompt of a batch (the
    prompt is a function of the batch). *)
Variable create : list Article -> World -> response * World.

Fixpoint batches_loop (articles : list Article) (batch_size : nat)
    (starts : list nat) (summarized : list SummarizedArticle) (w : World)
    : list SummarizedArticle * World :=
  match starts with
  | [] => (summarized, w)
  | i :: rest =>
      let batch := slice articles i (i + batch_size) in
      let (r, w') := create batch w in
      batches_loop articles batch_size rest (summarize_one batch r summarized) w'
  end.

(** [summarize_batch]: [range] refuses a zero step and is empty for a
    negative one. *)
Definition summarize_batch (articles : list Article) (batch_size : Z)
    (w : World) : pyresult (list SummarizedArticle) * World :=
  match articles with
  | [] => (Ok [], w)
  | _ :: _ =>
      if batch_size =? 0 then (Raise ValueError, w)
      else if batch_size <? 0 then (Ok [], w)
      else
        let bs := Z.to_nat batch_size in
        let (summarized, w') :=
          batches_loop articles bs (range_step (length articles) bs) [] w in
        (Ok summarized, w')
  end.

Fixpoint summarize_topics (items : list (pystr * list Article))
    (results : list (pystr * list SummarizedArticle)) (w : World)
    : pyresult (list (pystr * list SummarizedArticle)) * World :=
  match items with
  | [] => (Ok results, w)
  | (topic, articles) :: rest =>
      match summarize_batch articles 5 w with
      | (Ok summarized, w') =>
          summarize_topics rest (dict_set results topic summarized) w'
      | (Raise e, w') => (Raise e, w')
      end
  end.

Definition summarize_all (articles_by_topic : list (pystr * list Article))
    (w : World) : pyresult (list (pystr * list SummarizedArticle)) * World :=
  summarize_topics articles_by_topic [] w.

End Summarizer.

End Summarizer.

(** ** The specification's wording, for comparison with the code *)

Module Spec.
Import Py Datetime Json NewsFetcher.

(** The candidates of the summary, in the order summary, description,
    content; the empty string stands for a field that is missing or holds
    nothing. *)
Definition candidates (entry : Entry) : list pystr :=
  [ default [] (entry_summary entry);
    default [] (entry_description entry);
    match entry_content entry with
    | Some (c0 :: _) => default [] c0
    | _ => []
    end ].

Fixpoint first_nonempty (l : list pystr) : option pystr :=
  match l with
  | [] => None
  | [] :: r => first_nonempty r
  | ((_ :: _) as s) :: _ => Some s
  end.

(** "first non-empty candidate, tags stripped, truncated to 500" *)
Definition extract_summary_spec (entry : Entry) : pystr :=
  match first_nonempty (candidates entry) with
  | Some c => firstn 500 (strip_tags c)
  | None => []
  end.

(** A simple greedy tag-stripping pass: a [<], at least one character
    other than [>], and the next [>] go; everything else stays. *)
Definition greedy_tag_pass (f : pystr -> pystr) : Prop :=
  f [] = [] /\
  (forall c r, c <> 60 -> f (c :: r) = c :: f r) /\
  (forall body post,
      body <> [] -> ~ In 62 body -> f (60 :: body ++ 62 :: post) = f post) /\
  (forall r, f (60 :: 62 :: r) = 60 :: 62 :: f r) /\
  (forall r, ~ In 62 r -> f (60 :: r) = 60 :: r).






(** Newest first: the published instants never increase along the list. *)
Definition newest_first (l : list Article) : Prop :=
  StronglySorted
    (fun a b => instant (published b) <= instant (published a)) l.

(** The clock reads a time that a [datetime] can hold, two days or more
    after its first day. *)
Definition clock_in_range {World} (clock : World -> Z * World) (w : World)
    : Prop :=
  2 * usec_per_day <= fst (clock w) <= max_instant.

(** What a deduplicating fetch may add while the set of seen ids grows
    from [s] to [s']: Articles with pairwise different ids, none of them in
    [s], all of them in [s']. *)
Definition fresh (s s' : gset pystr) (arts : list Article) : Prop :=
  (s ⊆ s') /\
  NoDup (map id arts) /\
  forall a, a ∈ arts -> (id a ∉ s) /\ (id a ∈ s').

(** All Articles of a topic mapping. *)
Definition all_articles (by_topic : list (pystr * list Article))
    : list Article :=
  concat (map snd by_topic).

(** The output of the summarizer has the shape of its input: the same
    topics in the same order and, per topic, the i-th output made from the
    i-th input. *)
Definition same_shape (input : list (pystr * list Article))
    (output : list (pystr * list Summarizer.SummarizedArticle)) : Prop :=
  Forall2 (fun kv kv' =>
             fst kv' = fst kv /\ map Summarizer.original (snd kv') = snd kv)
          input output.

(** The JSON object [{"articles": items}]. *)
Definition articles_object (items : list pyval) : pyval :=
  PyDict [(str "articles", PyList items)].

(** A response that answers a batch position by position: it is a fallback
    case (the call raised, or [json.loads] did), or its ["articles"] list
    holds one object per article of the batch, in order, the k-th carrying
    the index k. *)
Definition answers_in_order (batch : list Article)
    (r : Summarizer.response) : Prop :=
  match r with
  | Summarizer.CallRaised _ => True
  | Summarizer.NoContent => False
  | Summarizer.Content (Raise _) => True
  | Summarizer.Content (Ok data) =>
      exists d items,
        data = PyDict d /\
        lookup (str "articles") d = Some (PyList items) /\
        Forall2 (fun k item =>
                   exists di, item = PyDict di /\
                     lookup (str "index") di = Some (PyInt (Z.of_nat k + 1)))
                (seq 0 (length batch)) items
  end.

End Spec.

(** ** Concrete data for the examples *)

Module Examples.
Import Py Datetime Json NewsFetcher.

Definition nba : pystr := str "NBA".

Definition a1 : Article :=
  mkArticle (str "Lakers win") (str "http://x/1") (str "ESPN")
    (mkdt 63839761445000000 true) (str "recap") [] nba (str "8fc064df14ff").

Definition a2 : Article :=
  mkArticle (str "Celtics lose") (str "http://x/2") (str "ESPN")
    (mkdt 63839761446000000 true) (str "report") [] nba (str "0123456789ab").

(** A model answer whose only element points past the batch. *)
Definition create_out_of_range (batch : list Article) (w : unit)
    : Summarizer.response * unit :=
  (Summarizer.Content
     (Ok (Spec.articles_object
            [PyDict [(str "index", PyInt 2); (str "title", PyStr (str "T"))]])),
   w).

(** A model answer with empty content. *)
Definition create_empty (batch : list Article) (w : unit)
    : Summarizer.response * unit :=
  (Summarizer.NoContent, w).

(** A model that answers every article of the batch, in order. *)
Definition create_echo (batch : list Article) (w : unit)
    : Summarizer.response * unit :=
  (Summarizer.Content
     (Ok (Spec.articles_object
            (map (fun k =>
                    PyDict [(str "index", PyInt (Z.of_nat k + 1));
                            (str "title", PyStr (str "T"));
                            (str "summary", PyStr (str "S"))])
                 (seq 0 (length batch))))),
   w).

(** A world for the collector: the state counts the calls made, the clock
    starts at 2024-01-02T03:04:05 and advances a second per reading, one
    feed URL answers, the search API is down. *)
Definition clock (w : nat) : Z * nat :=
  (63839761445000000 + Z.of_nat w * 1000000, S w).

Definition entry_of (title link : pystr) (date : option (list Z))
    (text : option pystr) : Entry :=
  mkEntry (Some title) (Some link)
    (fun f => match f with published_parsed => date | _ => None end)
    (fun _ => None) text None None.

(** An entry that only has the three text fields. *)
Definition entry_text (summary description : option pystr)
    (content : option (list (option pystr))) : Entry :=
  mkEntry None None (fun _ => None) (fun _ => None)
    summary description content.

Definition entry_a : Entry :=
  entry_of (str " Lakers win ") (str "http://x/1")
    (Some [2024; 1; 2; 3; 4; 5; 1; 2; 0]) (Some (str "<p>recap</p>")).

Definition entry_b : Entry :=
  entry_of [] (str "http://x/2") (Some [2024; 1; 2; 3; 4; 5; 1; 2; 0]) None.

Definition entry_c : Entry :=
  entry_of (str "Celtics lose") (str "http://x/3")
    (Some [2024; 1; 2; 3; 4; 6; 1; 2; 0]) None.

Definition feedparser_parse (url : pystr) (w : nat)
    : pyresult (list Entry) * nat :=
  if bool_decide (url = str "http://feed/1")
  then (Ok [entry_a; entry_b; entry_c], S w)
  else (Raise OSError, S w).

Definition newsapi_get (query key : pystr) (w : nat)
    : pyresult (list Item) * nat :=
  (Raise HTTPError, S w).

(** A search API that answers three items, the second with a [null]
    description. *)
Definition item_of (title url : pystr) (description : jstr) : Item :=
  mkItem (Str title) (Str url) Absent (SrcObj (Some (str "BBC"))) description.

Definition newsapi_get_three (query key : pystr) (w : nat)
    : pyresult (list Item) * nat :=
  (Ok [item_of (str "Knicks win") (str "http://y/1") (Str (str "text"));
       item_of (str "Nets win") (str "http://y/2") Null;
       item_of (str "Bulls win") (str "http://y/3") Absent],
   S w).

Definition strptime (date_string format : pystr) : option datetime := None.
Definition fromisoformat (date_string : pystr) : option datetime := None.
Definition urlparse (url : pystr) : pyresult unit := Ok tt.

Definition feed1 : Feed := mkFeed (Some (str "http://feed/1")) (Some (str "ESPN")).

(** One topic that lists the same feed twice. *)
Definition config (max_articles : option Z) : Config :=
  mkConfig [mkTopic (Some nba) [str "nba"] [feed1; feed1]]
           (mkSettings max_articles (Some 2)).

Definition fetch_all (max_articles : option Z) :=
  NewsFetcher.fetch_all nat clock feedparser_parse newsapi_get strptime
    fromisoformat urlparse None (config max_articles)
    (mkSt O ∅).

(** A chat endpoint that is down: every call raises. *)
Definition create_raises (batch : list Article) (w : unit)
    : Summarizer.response * unit :=
  (Summarizer.CallRaised Exception, w).

(** An entry whose title ends in a lone surrogate. *)
Definition entry_surrogate : Entry :=
  entry_of [97; 55296] (str "http://x/9") None None.

Definition entry_d : Entry :=
  entry_of (str "Knicks win") (str "http://x/4")
    (Some [2024; 1; 2; 3; 4; 7; 1; 2; 0]) None.

(** A second feed, which repeats one entry of the first. *)
Definition feed2 : Feed :=
  mkFeed (Some (str "http://feed/2")) (Some (str "BBC")).

Definition feedparser_parse_two (url : pystr) (w : nat)
    : pyresult (list Entry) * nat :=
  if bool_decide (url = str "http://feed/2")
  then (Ok [entry_c; entry_d], S w)
  else feedparser_parse url w.

Definition config_feed2 : Config :=
  mkConfig [mkTopic (Some nba) [] [feed2]] (mkSettings None (Some 2)).


(** A topics file whose [settings] key is left empty. *)
Definition config_null_settings : LoadedConfig :=
  mkLoadedConfig (Val [mkTopic (Some nba) [] [feed1]]) NullValue.

(** A topics file with [max_articles_per_topic: null]. *)
Definition config_null_max : LoadedConfig :=
  mkLoadedConfig (Val [mkTopic (Some nba) [] [feed1]])
    (Val (mkLoadedSettings NullValue (Val 2))).

(** A retention period that no [timedelta] can hold. *)
Definition config_overflow : Config :=
  mkConfig [] (mkSettings None (Some 1000000000)).

End Examples.

(** ** [main.py]: the path taken with [--skip-summarize] *)

Module Main.
Import Py Json NewsFetcher.

(** [summarized_by_topic[topic] = [SummarizedArticle(original=article,
    ai_title=article.title, ai_summary=article.summary, key_points=[])
    for article in articles]] over the items of [articles_by_topic]. *)
Fixpoint skip_topics (items : list (pystr * list Article))
    (summarized_by_topic : list (pystr * list Summarizer.SummarizedArticle))
    : list (pystr * list Summarizer.SummarizedArticle) :=
  match items with
  | [] => summarized_by_topic
  | (topic, articles) :: rest =>
      skip_topics rest
        (dict_set summarized_by_topic topic
           (map (fun article =>
                   Summarizer.mkSummarized article (PyStr (title article))
                     (PyStr (summary article)) (PyList []))
                articles))
  end.

Definition skip_summarize (articles_by_topic : list (pystr * list Article))
    : list (pystr * list Summarizer.SummarizedArticle) :=
  skip_topics articles_by_topic [].

End Main.

(** ** Predicates and instrumented worlds used by the further properties *)

Module Props.
Import Py Datetime Json NewsFetcher.

(** A chat endpoint that answers with [respond] and keeps the list of the
    batches it was asked, oldest first. *)
Definition recording (respond : list Article -> Summarizer.response)
    (batch : list Article) (calls : list (list Article))
    : Summarizer.response * list (list Article) :=
  (respond batch, calls ++ [batch]).

(** A decimal digit. *)
Definition is_digit (c : Z) : bool := (48 <=? c) && (c <=? 57).

(** A lower-case hexadecimal digit. *)
Definition hex_lower (c : Z) : bool :=
  ((48 <=? c) && (c <=? 57)) || ((97 <=? c) && (c <=? 102)).

(** A code point that UTF-8 can encode: a Unicode scalar value. *)
Definition encodable (c : Z) : bool :=
  ((0 <=? c) && (c <? 55296)) || ((57343 <? c) && (c <=? 1114111)).

(** A string that does not start with white space. *)
Definition no_leading_space (s : pystr) : Prop :=
  match s with
  | [] => True
  | c :: _ => isspace c = false
  end.

(** What [fetch_rss_feed] puts into an Article it appends. *)
Definition rss_article (feed_name topic_name : pystr) (a : Article) : Prop :=
  title a <> [] /\ strip (title a) = title a /\ link a <> [] /\
  source a = feed_name /\ topic a = topic_name /\ ai_summary a = [] /\
  (length (summary a) <= 500)%nat /\
  aware (published a) = true /\
  fingerprint (title a) (link a) = Ok (id a).

(** What [fetch_news_api] puts into an Article it appends. *)
Definition api_article (topic_name : pystr) (a : Article) : Prop :=
  title a <> [] /\ strip (title a) = title a /\
  title a <> str "[Removed]" /\ link a <> [] /\
  topic a = topic_name /\ ai_summary a = [] /\
  (length (summary a) <= 500)%nat /\
  fingerprint (title a) (link a) = Ok (id a).

(** A loop body that changes [seen_ids] only by adding the id of the
    Article it appends. *)
Definition adds_id {World} (m : M World (option Article)) : Prop :=
  forall st r st',
    m st = (r, st') ->
    seen_ids st' =
      match r with
      | Ok (Some a) => {[id a]} ∪ seen_ids st
      | _ => seen_ids st
      end.

(** [topic.get("name", "Unknown")] *)
Definition topic_key (t : Topic) : pystr :=
  default (str "Unknown") (topic_name t).

(** The API key is [None] or empty: the fallback source is off. *)
Definition no_api_key (news_api_key : option pystr) : Prop :=
  news_api_key = None \/ news_api_key = Some [].

(** A response on which both handlers of [summarize_batch] fall back. *)
Definition fails (r : Summarizer.response) : Prop :=
  match r with
  | Summarizer.CallRaised _ => True
  | Summarizer.Content (Raise _) => True
  | _ => False
  end.

End Props.
(** * Properties *)

Import Py Datetime Json.

(** ** The embedding on concrete inputs *)

Section Evaluation.
Import NewsFetcher Summarizer Spec.

(** A conjunction of closed equations, each settled by evaluation. *)
Ltac by_evaluation :=
  repeat (split; [vm_compute; reflexivity|]); vm_compute; reflexivity.

Example md5_empty :
  Hashlib.md5_hexdigest [] = str "d41d8cd98f00b204e9800998ecf8427e".
Proof. vm_compute. reflexivity. Qed.

Example md5_abc :
  Hashlib.md5_hexdigest [97; 98; 99] = str "900150983cd24fb0d6963f7d28e17f72".
Proof. vm_compute. reflexivity. Qed.

Example md5_two_blocks :
  Hashlib.md5_hexdigest (repeat 99 119)
  = str "e259897e3e8fb46951621b2cc1ff17f9".
Proof. vm_compute. reflexivity. Qed.

Example encode_two_bytes :
  Hashlib.encode [104; 233; 108; 108; 111] = Ok [104; 195; 169; 108; 108; 111].
Proof. vm_compute. reflexivity. Qed.

Example encode_lone_surrogate :
  Hashlib.encode [97; 55296] = Raise UnicodeEncodeError.
Proof. vm_compute. reflexivity. Qed.

Example strip_both_ends : strip (str "  Lakers win ") = str "Lakers win".
Proof. vm_compute. reflexivity. Qed.

Example strip_tags_plain :
  strip_tags (str "a<b>c<>d<e f='>'>g<h") = str "ac<>d'>g<h".
Proof. vm_compute. reflexivity. Qed.

Example strip_tags_nested : strip_tags (str "<<a>b>") = str "b>".
Proof. vm_compute. reflexivity. Qed.

Example strip_tz_abbrev_gmt :
  strip_tz_abbrev (str "Mon, 01 Jan 2024 10:00:00 GMT")
  = str "Mon, 01 Jan 2024 10:00:00".
Proof. vm_compute. reflexivity. Qed.

Example strip_tz_abbrev_before_newline :
  strip_tz_abbrev (str "x  AEDT" ++ [10]) = str "x" ++ [10].
Proof. vm_compute. reflexivity. Qed.

Example strip_tz_abbrev_five_capitals :
  strip_tz_abbrev (str "x GMTXX") = str "x GMTXX".
Proof. vm_compute. reflexivity. Qed.

Example strip_tz_abbrev_no_space : strip_tz_abbrev (str "GMT") = str "GMT".
Proof. vm_compute. reflexivity. Qed.

Example datetime_utc_ok :
  datetime_utc [2024; 1; 2; 3; 4; 5] = Ok (mkdt 63839761445000000 true).
Proof. vm_compute. reflexivity. Qed.

Example datetime_utc_bad_day : datetime_utc [2023; 2; 29] = Raise ValueError.
Proof. vm_compute. reflexivity. Qed.

Example datetime_utc_too_short : datetime_utc [2024; 1] = Raise TypeError.
Proof. vm_compute. reflexivity. Qed.

Example datetime_utc_overflow :
  datetime_utc [2147483648; 1; 1] = Raise OverflowError.
Proof. vm_compute. reflexivity. Qed.

(** The year is converted before the missing month is noticed. *)
Example datetime_utc_short_overflow :
  datetime_utc [2147483648] = Raise OverflowError /\
  datetime_utc [2024; -2147483649] = Raise OverflowError.
Proof. split; vm_compute; reflexivity. Qed.

Example isinstance_json_error :
  isinstance JSONDecodeError ValueError = true /\
  isinstance PermissionError FileNotFoundError = false /\
  isinstance OverflowError ValueError = false.
Proof. by_evaluation. Qed.

Example slice_to_negative : slice_to [1; 2; 3] (-1) = [1; 2].
Proof. vm_compute. reflexivity. Qed.

Example range_step_11_5 : range_step 11 5 = [0; 5; 10]%nat.
Proof. vm_compute. reflexivity. Qed.

Example extract_summary_entry_a : _extract_summary Examples.entry_a = str "recap".
Proof. vm_compute. reflexivity. Qed.

Example extract_summary_description :
  _extract_summary
    (Examples.entry_text (Some []) (Some (str "<b>x</b>y")) None)
  = str "xy".
Proof. vm_compute. reflexivity. Qed.

Example extract_summary_content :
  _extract_summary
    (Examples.entry_text None None
       (Some [Some (str "<i>z</i>"); Some (str "w")]))
  = str "z".
Proof. vm_compute. reflexivity. Qed.

Example extract_summary_cut :
  length (_extract_summary
            (Examples.entry_text (Some (repeat 97 600)) None None))
  = 500%nat.
Proof. vm_compute. reflexivity. Qed.

Example extract_summary_nothing :
  _extract_summary (Examples.entry_text None (Some []) (Some [])) = [].
Proof. vm_compute. reflexivity. Qed.

(** One feed with the entries A (title, link), B (empty title) and C,
    listed twice: B is skipped, the second fetch adds nothing, the newer C
    comes first. *)
Example fetch_all_two_articles :
  exists a_c a_a st',
    Examples.fetch_all None = (Ok [(Examples.nba, [a_c; a_a])], st') /\
    title a_c = str "Celtics lose" /\ title a_a = str "Lakers win" /\
    id a_a = str "8fc064df14ff" /\ id a_c = str "2bf5a8cab5ed" /\
    summary a_a = str "recap".
Proof. eexists _, _, _. by_evaluation. Qed.

(** The search API: the [null] description of the second item raises a
    [TypeError] that ends the loop, the first item stays. *)
Example fetch_news_api_stops_at_null :
  exists a st',
    fetch_news_api nat Examples.clock Examples.newsapi_get_three
      Examples.fromisoformat (Some (str "k")) [str "nba"] Examples.nba
      (mkSt O ∅) = ([a], st') /\
    title a = str "Knicks win" /\ source a = str "BBC".
Proof. eexists _, _. by_evaluation. Qed.

(** A float index in range is no list index: the batch falls back. *)
Example float_index_falls_back :
  summarize_one [Examples.a1]
    (Content (Ok (articles_object
       [PyDict [(str "index", PyFloat (float_of_Z 1))]]))) []
  = fallback [Examples.a1].
Proof. vm_compute. reflexivity. Qed.

(** A float index out of range is discarded like an int. *)
Example float_index_out_of_range :
  item_step [Examples.a1]
    (PyDict [(str "index", PyFloat (binary_normalize 53 1024 15 (-1) false))])
  = Ok None.
Proof. vm_compute. reflexivity. Qed.

(** An element that raises after another one was appended: what was
    appended stays, and the fallback of the whole batch follows it. *)
Example malformed_element_appends_twice :
  summarize_one [Examples.a1]
    (Content (Ok (articles_object
       [PyDict [(str "index", PyInt 1); (str "title", PyStr (str "T"))];
        PyNone]))) []
  = [mkSummarized Examples.a1 (PyStr (str "T")) (PyStr []) (PyList [])]
    ++ fallback [Examples.a1].
Proof. vm_compute. reflexivity. Qed.

End Evaluation.

(** ** The fingerprint of an [Article] *)

Section ArticleId.
Import NewsFetcher.

Lemma length_bytes_of_word n x : length (Hashlib.bytes_of_word n x) = n.
Proof. unfold Hashlib.bytes_of_word. now rewrite length_map, length_seq. Qed.

Lemma length_digest msg : length (Hashlib.digest msg) = 16%nat.
Proof.
  unfold Hashlib.digest. rewrite !length_app, !length_bytes_of_word.
  reflexivity.
Qed.

Lemma length_md5_hexdigest data :
  length (Hashlib.md5_hexdigest data) = 32%nat.
Proof.
  unfold Hashlib.md5_hexdigest.
  assert (H : forall l, length (flat_map Hashlib.hex_of_byte l)
                        = (2 * length l)%nat).
  { induction l as [|b l IH]; simpl; [reflexivity | rewrite IH; lia]. }
  rewrite H, length_digest. reflexivity.
Qed.

Lemma fingerprint_length t l i : fingerprint t l = Ok i -> length i = 12%nat.
Proof.
  unfold fingerprint. destruct (Hashlib.encode (t ++ l)) as [content|e];
    simpl; intros H; inversion H; subst.
  unfold slice_to. change (0 <=? 12) with true. cbv iota.
  rewrite length_firstn, length_md5_hexdigest. reflexivity.
Qed.

Lemma new_Article_default_id t l s p su ai tp a :
  new_Article t l s p su ai tp [] = Ok a ->
  fingerprint t l = Ok (id a) /\
  a = mkArticle t l s p su ai tp (id a).
Proof.
  unfold new_Article, __post_init__. simpl.
  destruct (fingerprint t l) as [i|e]; simpl; intros H; inversion H; subst.
  simpl. split; reflexivity.
Qed.

(** C4. Two Articles built with the default (empty) id from the same title
    and the same link carry the same id, whatever their other attributes;
    that id is the first 12 characters of the MD5 hex digest of the UTF-8
    encoding of [title + link]. *)
Theorem article_id_deterministic :
  forall t l s1 s2 p1 p2 su1 su2 ai1 ai2 tp1 tp2 a1 a2,
    new_Article t l s1 p1 su1 ai1 tp1 [] = Ok a1 ->
    new_Article t l s2 p2 su2 ai2 tp2 [] = Ok a2 ->
    id a1 = id a2 /\
    (exists content,
        Hashlib.encode (t ++ l) = Ok content /\
        id a1 = firstn 12 (Hashlib.md5_hexdigest content)) /\
    length (id a1) = 12%nat.
Proof.
  intros t l s1 s2 p1 p2 su1 su2 ai1 ai2 tp1 tp2 a1 a2 H1 H2.
  apply new_Article_default_id in H1 as [F1 _].
  apply new_Article_default_id in H2 as [F2 _].
  split; [congruence|]. split.
  - unfold fingerprint in F1.
    destruct (Hashlib.encode (t ++ l)) as [content|e]; simpl in F1;
      inversion F1. exists content. split; reflexivity.
  - eapply fingerprint_length; eassumption.
Qed.

Lemma article_id_deterministic_witness :
  exists a1 a2,
    new_Article (str "Lakers win") (str "http://x/1") (str "ESPN")
      (mkdt 0 true) [] [] (str "NBA") [] = Ok a1 /\
    new_Article (str "Lakers win") (str "http://x/1") (str "NewsAPI")
      (mkdt 86400000000 true) (str "recap") [] (str "Lakers") [] = Ok a2 /\
    id a1 = id a2 /\ id a1 = str "8fc064df14ff".
Proof.
  eexists _, _.
  split; [vm_compute; reflexivity|].
  split; [vm_compute; reflexivity|].
  split; [|vm_compute; reflexivity].
  eapply (article_id_deterministic (str "Lakers win") (str "http://x/1"));
    vm_compute; reflexivity.
Defined.

(** C10. An explicitly supplied non-empty id is left as it is: the
    fingerprint is computed only for the empty id. *)
Theorem article_explicit_id_kept :
  forall t l s p su ai tp i,
    i <> [] ->
    new_Article t l s p su ai tp i = Ok (mkArticle t l s p su ai tp i) /\
    (forall a, new_Article t l s p su ai tp [] = Ok a ->
               fingerprint t l = Ok (id a)).
Proof.
  intros t l s p su ai tp i Hi. split.
  - unfold new_Article, __post_init__. simpl.
    destruct i; [contradiction | reflexivity].
  - intros a H. now apply new_Article_default_id in H.
Qed.

Lemma article_explicit_id_kept_witness :
  new_Article (str "Lakers win") (str "http://x/1") (str "ESPN")
    (mkdt 0 true) [] [] (str "NBA") (str "mine")
  = Ok (mkArticle (str "Lakers win") (str "http://x/1") (str "ESPN")
          (mkdt 0 true) [] [] (str "NBA") (str "mine")).
Proof.
  apply (article_explicit_id_kept (str "Lakers win") (str "http://x/1")
           (str "ESPN") (mkdt 0 true) [] [] (str "NBA") (str "mine")).
  vm_compute. discriminate.
Defined.

End ArticleId.

(** ** [_extract_summary] *)

Section ExtractSummary.
Import NewsFetcher Spec.

Lemma tag_rest_found body post :
  ~ In 62 body -> tag_rest (body ++ 62 :: post) = Some (length body).
Proof.
  induction body as [|c body IH]; simpl; intros H; [reflexivity|].
  destruct (Z.eqb_spec c 62) as [->|Hc]; [exfalso; apply H; now left|].
  rewrite IH by (intros Hin; apply H; now right). reflexivity.
Qed.

Lemma tag_rest_none r : ~ In 62 r -> tag_rest r = None.
Proof.
  induction r as [|c r IH]; simpl; intros H; [reflexivity|].
  destruct (Z.eqb_spec c 62) as [->|Hc]; [exfalso; apply H; now left|].
  rewrite IH by (intros Hin; apply H; now right). reflexivity.
Qed.

Lemma strip_tags_from_skip l1 l2 :
  strip_tags_from (length l1) (l1 ++ l2) = strip_tags_from O l2.
Proof. induction l1 as [|c l1 IH]; simpl; [reflexivity | exact IH]. Qed.

Lemma strip_tags_no_gt r : ~ In 62 r -> strip_tags_from O r = r.
Proof.
  induction r as [|c r IH]; simpl; intros H; [reflexivity|].
  assert (Hr : ~ In 62 r) by (intros Hin; apply H; now right).
  rewrite (tag_rest_none r Hr), (IH Hr). now destruct (c =? 60).
Qed.

Lemma strip_tags_is_greedy_pass : greedy_tag_pass strip_tags.
Proof.
  unfold greedy_tag_pass, strip_tags.
  split; [reflexivity|]. split; [|split; [|split]].
  - intros c r Hc. simpl. destruct (Z.eqb_spec c 60); [contradiction|].
    reflexivity.
  - intros body post Hne Hgt. simpl.
    rewrite (tag_rest_found body post Hgt).
    destruct body as [|b body]; [contradiction|]. cbn [length].
    replace ((b :: body) ++ 62 :: post) with (((b :: body) ++ [62]) ++ post)
      by now rewrite <- app_assoc.
    replace (S (S (length body))) with (length ((b :: body) ++ [62]))
      by (rewrite length_app; simpl; lia).
    apply strip_tags_from_skip.
  - intros r. simpl. reflexivity.
  - intros r Hgt. simpl. rewrite (tag_rest_none r Hgt).
    now rewrite (strip_tags_no_gt r Hgt).
Qed.

Lemma truncate_500 (clean : pystr) :
  (if (500 <? length clean)%nat then slice_to clean 500 else clean)
  = firstn 500 clean.
Proof.
  unfold slice_to. change (0 <=? 500) with true. cbv iota.
  change (Z.to_nat 500) with 500%nat.
  destruct (Nat.ltb_spec 500 (length clean)); [reflexivity|].
  symmetry. apply firstn_all2. lia.
Qed.

Lemma extract_summary_refines entry :
  _extract_summary entry = extract_summary_spec entry.
Proof.
  unfold _extract_summary, extract_summary_spec, candidates, for_return,
    entry_field.
  destruct entry as [t l d ds su de co]; simpl.
  destruct su as [[|c su]|]; simpl;
    try (rewrite truncate_500; reflexivity);
  (destruct de as [[|c' de]|]; simpl;
    try (rewrite truncate_500; reflexivity));
  (destruct co as [[|[[|c'' v]|] co]|]; simpl;
    try (rewrite truncate_500; reflexivity); reflexivity).
Qed.

(** C8. [_extract_summary] returns the first non-empty candidate among
    summary, description and content, with tags removed by the greedy
    [<...>] pass and cut to at most 500 characters; without such a field
    it returns the empty string. *)
Theorem extract_summary_first_candidate_stripped :
  greedy_tag_pass strip_tags /\
  forall entry,
    (length (_extract_summary entry) <= 500)%nat /\
    match first_nonempty (candidates entry) with
    | Some c => _extract_summary entry = firstn 500 (strip_tags c)
    | None => _extract_summary entry = []
    end.
Proof.
  split; [exact strip_tags_is_greedy_pass|].
  intros entry. rewrite extract_summary_refines. unfold extract_summary_spec.
  destruct (first_nonempty (candidates entry)) as [c|].
  - split; [|reflexivity]. rewrite length_firstn. lia.
  - split; [simpl; lia | reflexivity].
Qed.

End ExtractSummary.

(** ** [_parse_published_date] *)

Section ParsePublishedDate.
Import NewsFetcher Spec.

Context {World : Type}.
Variable clock : World -> Z * World.
Variable strptime : pystr -> pystr -> option datetime.



Lemma forallb_c_int_firstn n t :
  forallb c_int t = true -> forallb c_int (firstn n t) = true.
Proof.
  revert n. induction t as [|x t IH]; intros [|n]; simpl; try reflexivity.
  intros H. apply andb_prop in H as [-> H]. simpl. now apply IH.
Qed.









End ParsePublishedDate.



(** ** [summarize_batch] and [summarize_all] *)

Section SummarizerProofs.
Import NewsFetcher Summarizer Spec.

Lemma original_fallback batch : map original (fallback batch) = batch.
Proof.
  unfold fallback. rewrite map_map. simpl. apply map_id.
Qed.

Lemma items_loop_skip batch item pre post summarized :
  item_step batch item = Ok None ->
  items_loop batch (pre ++ item :: post) summarized
  = items_loop batch (pre ++ post) summarized.
Proof.
  intros Hskip. revert summarized.
  induction pre as [|x pre IH]; intros summarized; simpl.
  - now rewrite Hskip.
  - destruct (item_step batch x) as [[sa|]|e]; auto.
Qed.

Lemma item_step_out_of_range batch d n :
  lookup (str "index") d = Some (PyInt n) ->
  n - 1 < 0 \/ Z.of_nat (length batch) <= n - 1 ->
  item_step batch (PyDict d) = Ok None.
Proof.
  intros Hidx Hout. unfold item_step, get. rewrite Hidx. simpl.
  replace ((0 <=? n - 1) && (n - 1 <? Z.of_nat (length batch))) with false;
    [reflexivity|].
  symmetry. apply andb_false_iff. destruct Hout; [left | right]; lia.
Qed.

(** C6. A response element whose 1-based index points outside the batch is
    discarded: it raises nothing, and the batch's result is what the
    response without that element gives. *)
Theorem out_of_range_index_discarded :
  forall batch d n,
    lookup (str "index") d = Some (PyInt n) ->
    n - 1 < 0 \/ Z.of_nat (length batch) <= n - 1 ->
    item_step batch (PyDict d) = Ok None /\
    forall pre post summarized,
      parse_response batch (articles_object (pre ++ PyDict d :: post))
        summarized
      = parse_response batch (articles_object (pre ++ post)) summarized /\
      summarize_one batch
        (Content (Ok (articles_object (pre ++ PyDict d :: post)))) summarized
      = summarize_one batch
          (Content (Ok (articles_object (pre ++ post)))) summarized.
Proof.
  intros batch d n Hidx Hout.
  pose proof (item_step_out_of_range batch d n Hidx Hout) as Hskip.
  split; [exact Hskip|]. intros pre post summarized.
  assert (E : parse_response batch (articles_object (pre ++ PyDict d :: post))
                summarized
              = parse_response batch (articles_object (pre ++ post))
                  summarized).
  { unfold parse_response, articles_object. simpl.
    now apply items_loop_skip. }
  split; [exact E|]. unfold summarize_one. now rewrite E.
Qed.

Lemma out_of_range_index_discarded_witness :
  summarize_one [Examples.a1; Examples.a2]
    (Content (Ok (articles_object
       [PyDict [(str "index", PyInt 2)];
        PyDict [(str "index", PyInt 7); (str "title", PyStr (str "X"))];
        PyDict [(str "index", PyInt 1)]]))) []
  = summarize_one [Examples.a1; Examples.a2]
      (Content (Ok (articles_object
         [PyDict [(str "index", PyInt 2)];
          PyDict [(str "index", PyInt 1)]]))) [].
Proof.
  refine (proj2 (proj2 (out_of_range_index_discarded
                          [Examples.a1; Examples.a2]
                          [(str "index", PyInt 7);
                           (str "title", PyStr (str "X"))] 7 _ _)
                   [PyDict [(str "index", PyInt 2)]]
                   [PyDict [(str "index", PyInt 1)]] [])).
  - vm_compute. reflexivity.
  - right. vm_compute. discriminate.
Defined.

(** C2. On a failure the batch is meant to come out as one pass-through
    SummarizedArticle per article (original title and summary, no key
    points).  The code does so when the call raises and when [json.loads]
    raises; with a missing or empty content it appends nothing, so the
    articles of that batch are lost. *)
Theorem fallback_skipped_on_empty_content :
  (forall batch e summarized,
      summarize_one batch (CallRaised e) summarized
      = summarized ++ fallback batch) /\
  (forall batch e summarized,
      summarize_one batch (Content (Raise e)) summarized
      = summarized ++ fallback batch) /\
  (forall batch summarized,
      summarize_one batch NoContent summarized = summarized) /\
  summarize_batch unit Examples.create_empty [Examples.a1] 5 tt = (Ok [], tt) /\
  fallback [Examples.a1]
  = [mkSummarized Examples.a1 (PyStr (str "Lakers win"))
       (PyStr (str "recap")) (PyList [])].
Proof.
  repeat split.
  intros batch e summarized. simpl. now destruct (isinstance e JSONDecodeError).
Qed.

(** *** Batches *)

Lemma slice_0 {A} (l : list A) n : slice l 0 n = firstn n l.
Proof. unfold slice. simpl. now rewrite Nat.sub_0_r. Qed.

Lemma slice_shift {A} (l : list A) bs i :
  slice l (bs + i) (bs + i + bs) = slice (skipn bs l) i (i + bs).
Proof.
  unfold slice. rewrite skipn_skipn.
  replace (i + bs)%nat with (bs + i)%nat by lia.
  f_equal; lia.
Qed.

Lemma chunks_concat {A} n : forall (l : list A) bs,
  (length l <= n * bs)%nat ->
  concat (map (fun i => slice l i (i + bs))
              (map (fun k => (k * bs)%nat) (seq 0 n))) = l.
Proof.
  induction n as [|n IH]; intros l bs Hlen.
  - simpl in *. destruct l; [reflexivity | simpl in Hlen; lia].
  - cbn [seq map concat]. rewrite <- seq_shift, !map_map.
    change (0 * bs)%nat with 0%nat. rewrite slice_0.
    transitivity (firstn bs l ++ skipn bs l); [|apply firstn_skipn].
    f_equal.
    etransitivity;
      [|apply (IH (skipn bs l) bs); rewrite length_skipn; simpl in Hlen; lia].
    rewrite map_map. f_equal. apply map_ext. intros k.
    change (S k * bs)%nat with (bs + k * bs)%nat. apply slice_shift.
Qed.

Lemma range_step_covers stop step :
  (0 < step)%nat -> (stop <= (stop + step - 1) / step * step)%nat.
Proof.
  intros Hs.
  pose proof (Nat.div_mod (stop + step - 1) step ltac:(lia)) as Hd.
  pose proof (Nat.mod_upper_bound (stop + step - 1) step ltac:(lia)) as Hm.
  nia.
Qed.

Lemma batches_concat {A} (l : list A) bs :
  (0 < bs)%nat ->
  concat (map (fun i => slice l i (i + bs)) (range_step (length l) bs)) = l.
Proof.
  intros Hbs. unfold range_step. apply chunks_concat.
  now apply range_step_covers.
Qed.

(** *** The success path on a response that answers in order *)

Lemma items_loop_in_order batch : forall items s summarized,
  Forall2 (fun k item =>
             exists di, item = PyDict di /\
               lookup (str "index") di = Some (PyInt (Z.of_nat k + 1)))
          (seq s (length items)) items ->
  (s + length items <= length batch)%nat ->
  exists out,
    items_loop batch items summarized = (out, None) /\
    map original out
    = map original summarized ++ firstn (length items) (skipn s batch).
Proof.
  induction items as [|item items IH]; intros s summarized HF Hlen.
  - exists summarized. simpl. now rewrite app_nil_r.
  - simpl in HF. inversion HF as [|k x ks xs [di [-> Hidx]] HF' E1 E2]; subst.
    simpl in Hlen.
    destruct (nth_error batch s) as [a|] eqn:Hnth;
      [|apply nth_error_None in Hnth; lia].
    assert (Hstep : exists t su kp,
               item_step batch (PyDict di) = Ok (Some (mkSummarized a t su kp))).
    { unfold item_step, get. rewrite Hidx. simpl.
      replace (Z.of_nat s + 1 - 1) with (Z.of_nat s) by lia.
      replace ((0 <=? Z.of_nat s) && (Z.of_nat s <? Z.of_nat (length batch)))
        with true
        by (symmetry; apply andb_true_iff; split; lia).
      unfold index. rewrite Nat2Z.id, Hnth. simpl. eauto. }
    destruct Hstep as (t & su & kp & Hstep).
    destruct (IH (S s) (summarized ++ [mkSummarized a t su kp]) HF'
                ltac:(lia)) as (out & Hout & Horig).
    exists out. simpl. rewrite Hstep. split; [exact Hout|].
    rewrite Horig, map_app, <- app_assoc. simpl. f_equal.
    clear -Hnth. revert s Hnth. induction batch as [|b batch IHb];
      intros [|s] Hnth; simpl in *; try discriminate.
    + inversion Hnth. reflexivity.
    + now apply IHb.
Qed.

Lemma summarize_one_in_order batch r summarized :
  answers_in_order batch r ->
  map original (summarize_one batch r summarized)
  = map original summarized ++ batch.
Proof.
  destruct r as [e| |[data|e]]; simpl; intros H.
  - now rewrite map_app, original_fallback.
  - contradiction.
  - destruct H as (d & items & -> & Harts & HF).
    unfold parse_response, get. rewrite Harts. simpl.
    pose proof HF as Hlen. apply Forall2_length in Hlen.
    rewrite length_seq in Hlen.
    rewrite Hlen in HF.
    destruct (items_loop_in_order batch items 0%nat summarized HF
                ltac:(lia)) as (out & -> & Horig).
    rewrite Horig. simpl. rewrite <- Hlen. now rewrite firstn_all.
  - destruct (isinstance e JSONDecodeError);
      now rewrite map_app, original_fallback.
Qed.

Lemma dict_set_fresh {V} (d : list (pystr * V)) k v :
  ~ In k (map fst d) -> dict_set d k v = d ++ [(k, v)].
Proof.
  induction d as [|[k' v'] d IH]; simpl; intros H; [reflexivity|].
  rewrite bool_decide_eq_false_2 by (intros ->; apply H; now left).
  rewrite IH by (intros Hin; apply H; now right). reflexivity.
Qed.

Section World.

Context {World : Type}.
Variable create : list Article -> World -> response * World.
Hypothesis create_answers : forall batch w, answers_in_order batch (fst (create batch w)).

Lemma batches_loop_in_order articles bs : forall starts summarized w,
  map original (fst (batches_loop World create articles bs starts summarized w))
  = map original summarized
    ++ concat (map (fun i => slice articles i (i + bs)) starts).
Proof.
  induction starts as [|i starts IH]; intros summarized w; simpl.
  - now rewrite app_nil_r.
  - pose proof (create_answers (slice articles i (i + bs)) w) as Hr.
    destruct (create (slice articles i (i + bs)) w) as [r w'].
    rewrite IH, (summarize_one_in_order _ _ _ Hr). now rewrite <- app_assoc.
Qed.

Lemma summarize_batch_in_order articles w :
  exists out w',
    summarize_batch World create articles 5 w = (Ok out, w') /\
    map original out = articles.
Proof.
  unfold summarize_batch. destruct articles as [|a articles]; [eauto|].
  change (5 =? 0) with false. change (5 <? 0) with false. cbv iota.
  change (Z.to_nat 5) with 5%nat.
  pose proof (batches_loop_in_order (a :: articles) 5
                (range_step (length (a :: articles)) 5) [] w) as H.
  destruct (batches_loop World create (a :: articles) 5 _ [] w)
    as [out w'].
  exists out, w'. split; [reflexivity|].
  simpl fst in H. rewrite H. simpl map at 1. rewrite app_nil_l.
  apply batches_concat. lia.
Qed.

Lemma summarize_topics_in_order : forall items results w,
  NoDup (map fst items) ->
  (forall k, In k (map fst items) -> ~ In k (map fst results)) ->
  exists out w',
    summarize_topics World create items results w = (Ok (results ++ out), w') /\
    same_shape items out.
Proof.
  induction items as [|[topic articles] items IH]; intros results w Hnd Hfresh.
  - exists [], w. simpl. rewrite app_nil_r. split; [reflexivity | constructor].
  - simpl in Hnd. inversion Hnd as [|k ks Hnotin Hnd']; subst.
    destruct (summarize_batch_in_order articles w) as (out & w1 & Hb & Horig).
    simpl. rewrite Hb.
    rewrite dict_set_fresh by (apply Hfresh; now left).
    destruct (IH (results ++ [(topic, out)]) w1 Hnd') as (rest & w' & Hrest & Hshape).
    { intros k Hk. rewrite map_app, in_app_iff. simpl.
      intros [Hin | [<- | []]].
      - apply (Hfresh k); [now right | exact Hin].
      - apply Hnotin. apply list_elem_of_In. exact Hk. }
    exists ((topic, out) :: rest), w'. rewrite Hrest, <- app_assoc.
    split; [reflexivity|]. constructor; [split; [reflexivity | exact Horig]|].
    exact Hshape.
Qed.

(** C1 (amended). [summarize_all] keeps the topics and their order, and for
    every topic the i-th output is made from the i-th input, whenever each
    batch takes a fallback path or a success path whose response answers
    the batch position by position. *)
Theorem summarize_all_same_shape :
  forall (articles_by_topic : list (pystr * list Article)) (w : World),
    NoDup (map fst articles_by_topic) ->
    exists out w',
      summarize_all World create articles_by_topic w = (Ok out, w') /\
      same_shape articles_by_topic out.
Proof.
  intros by_topic w Hnd. unfold summarize_all.
  destruct (summarize_topics_in_order by_topic [] w Hnd) as (out & w' & H & Hs).
  - intros k _ [].
  - exists out, w'. split; [exact H | exact Hs].
Qed.

End World.

Lemma create_echo_answers batch w :
  answers_in_order batch (fst (Examples.create_echo batch w)).
Proof.
  simpl. eexists _, _. split; [reflexivity|]. split; [reflexivity|].
  generalize 0%nat. induction (length batch) as [|n IH]; intros s; simpl.
  - constructor.
  - constructor; [eexists; split; reflexivity | apply IH].
Qed.

Lemma summarize_all_same_shape_witness :
  exists out,
    summarize_all unit Examples.create_echo
      [(Examples.nba, [Examples.a1; Examples.a2])] tt = (Ok out, tt) /\
    same_shape [(Examples.nba, [Examples.a1; Examples.a2])] out.
Proof.
  destruct (summarize_all_same_shape Examples.create_echo create_echo_answers
              [(Examples.nba, [Examples.a1; Examples.a2])] tt)
    as (out & [] & H & Hs).
  - repeat constructor. intros H; inversion H.
  - exists out. split; assumption.
Defined.

(** C1 as stated fails: a response whose only element points past the
    batch leaves the topic with no output at all. *)
Lemma summarize_all_same_shape_counterexample :
  summarize_all unit Examples.create_out_of_range
    [(Examples.nba, [Examples.a1])] tt = (Ok [(Examples.nba, [])], tt) /\
  ~ same_shape [(Examples.nba, [Examples.a1])] [(Examples.nba, [])].
Proof.
  split; [vm_compute; reflexivity|].
  intros H. inversion H as [|? ? ? ? [_ Habs] _]; subst. discriminate Habs.
Qed.

End SummarizerProofs.

(** ** [fetch_all]: filter, sort, cut *)

Section PostProcess.
Import NewsFetcher Spec.

Abbreviation key := (fun a : Article => instant (published a)).
Abbreviation later_first := (fun a b : Article => key b <= key a).

Lemma insert_desc_perm a l : insert_desc a l ≡ₚ a :: l.
Proof.
  induction l as [|b l IH]; simpl; [reflexivity|].
  destruct (key a <? key b); [|reflexivity].
  rewrite IH. apply Permutation_swap.
Qed.

Lemma insert_desc_sorted a l :
  StronglySorted later_first l -> StronglySorted later_first (insert_desc a l).
Proof.
  induction l as [|b l IH]; simpl; intros Hs.
  - repeat constructor.
  - apply StronglySorted_inv in Hs as [Hl Hb].
    destruct (Z.ltb_spec (key a) (key b)) as [Hlt|Hge].
    + constructor; [now apply IH|].
      rewrite insert_desc_perm. constructor; [simpl; lia | exact Hb].
    + constructor; [now constructor|].
      constructor; [simpl; lia|].
      eapply Forall_impl; [exact Hb|]. simpl. intros x Hx. lia.
Qed.

Lemma sort_published_desc_perm l : sort_published_desc l ≡ₚ l.
Proof.
  induction l as [|a l IH]; simpl; [reflexivity|].
  now rewrite insert_desc_perm, IH.
Qed.

Lemma sort_published_desc_sorted l : newest_first (sort_published_desc l).
Proof.
  induction l as [|a l IH]; simpl; [constructor|].
  now apply insert_desc_sorted.
Qed.

Lemma filter_recent_spec cutoff : forall l kept,
  filter_recent cutoff l = Ok kept ->
  Forall (fun a => instant cutoff <= key a) kept /\ kept `sublist_of` l.
Proof.
  induction l as [|a l IH]; simpl; intros kept H.
  - inversion H. split; constructor.
  - unfold ge in H. destruct (eqb (aware (published a)) (aware cutoff));
      simpl in H; [|discriminate].
    destruct (filter_recent cutoff l) as [r'|e]; simpl in H; [|discriminate].
    destruct (IH r' eq_refl) as [HF Hsub].
    destruct (Z.leb_spec (instant cutoff) (key a)); inversion H; subst.
    + split; [now constructor | now apply sublist_skip].
    + split; [exact HF | now apply sublist_cons].
Qed.

Lemma filter_recent_complete cutoff : forall l kept a,
  filter_recent cutoff l = Ok kept ->
  a ∈ l -> instant cutoff <= key a -> a ∈ kept.
Proof.
  induction l as [|b l IH]; simpl; intros kept a H Ha Hle.
  - inversion Ha.
  - unfold ge in H. destruct (eqb (aware (published b)) (aware cutoff));
      simpl in H; [|discriminate].
    destruct (filter_recent cutoff l) as [r'|e]; simpl in H; [|discriminate].
    apply elem_of_cons in Ha as [->|Ha].
    + destruct (Z.leb_spec (instant cutoff) (key b)); [|lia].
      inversion H. left.
    + specialize (IH r' a eq_refl Ha Hle).
      destruct (instant cutoff <=? key b); inversion H; subst;
        [now right | exact IH].
Qed.

Lemma slice_to_submseteq {A} (l : list A) n : slice_to l n ⊆+ l.
Proof. unfold slice_to. destruct (0 <=? n); apply submseteq_take. Qed.

Lemma slice_to_length {A} (l : list A) n :
  0 <= n -> Z.of_nat (length (slice_to l n)) <= n.
Proof.
  intros Hn. unfold slice_to. destruct (Z.leb_spec 0 n); [|lia].
  rewrite length_firstn. lia.
Qed.

Lemma StronglySorted_take {A} (R : A -> A -> Prop) n : forall l,
  StronglySorted R l -> StronglySorted R (take n l).
Proof.
  induction n as [|n IH]; intros [|a l] Hs; simpl; try constructor.
  - apply StronglySorted_inv in Hs as [Hl _]. now apply IH.
  - apply StronglySorted_inv in Hs as [_ Ha]. now apply Forall_take.
Qed.

Lemma slice_to_sorted {A} (R : A -> A -> Prop) (l : list A) n :
  StronglySorted R l -> StronglySorted R (slice_to l n).
Proof. unfold slice_to. destruct (0 <=? n); apply StronglySorted_take. Qed.

Lemma post_process_spec cutoff max_articles l final :
  post_process cutoff max_articles l = Ok final ->
  Forall (fun a => instant cutoff <= key a) final /\
  newest_first final /\
  (0 <= max_articles -> Z.of_nat (length final) <= max_articles) /\
  final ⊆+ l.
Proof.
  unfold post_process. destruct (filter_recent cutoff l) as [kept|e] eqn:E;
    simpl; intros H; inversion H; subst; clear H.
  apply filter_recent_spec in E as [HF Hsub].
  pose proof (slice_to_submseteq (sort_published_desc kept) max_articles)
    as Hcut.
  assert (Hk : slice_to (sort_published_desc kept) max_articles ⊆+ kept)
    by (etransitivity; [exact Hcut|];
        apply Permutation_submseteq, sort_published_desc_perm).
  split; [|split; [|split]].
  - rewrite Forall_forall in HF |- *. intros a Ha. apply HF.
    eapply elem_of_submseteq; [exact Ha | exact Hk].
  - apply slice_to_sorted, sort_published_desc_sorted.
  - apply slice_to_length.
  - etransitivity; [exact Hk|]. now apply sublist_submseteq.
Qed.

Lemma dict_set_Forall {V} (P : pystr * V -> Prop) d k v :
  Forall P d -> P (k, v) -> Forall P (dict_set d k v).
Proof.
  induction d as [|[k' v'] d IH]; simpl; intros Hd Hv.
  - now constructor.
  - apply Forall_cons in Hd as [Hkv Hd].
    destruct (bool_decide (k = k')); constructor; auto.
Qed.

End PostProcess.

(** ** The collector over any outside world *)

Section FetcherProofs.
Import NewsFetcher Spec.

Context {World : Type}.
Variable clock : World -> Z * World.
Variable feedparser_parse : pystr -> World -> pyresult (list Entry) * World.
Variable newsapi_get : pystr -> pystr -> World -> pyresult (list Item) * World.
Variable strptime : pystr -> pystr -> option datetime.
Variable fromisoformat : pystr -> option datetime.
Variable urlparse : pystr -> pyresult unit.

Abbreviation St := (NewsFetcher.St World).
Abbreviation seen := (@seen_ids World).
Abbreviation keeps_seen := (@NewsFetcher.keeps_seen World _).
Abbreviation appends_fresh := (@NewsFetcher.appends_fresh World).
Abbreviation fetch_rss_feed :=
  (NewsFetcher.fetch_rss_feed World clock feedparser_parse strptime urlparse).
Abbreviation fetch_news_api :=
  (NewsFetcher.fetch_news_api World clock newsapi_get fromisoformat).
Abbreviation collect_topic :=
  (NewsFetcher.collect_topic World clock feedparser_parse newsapi_get
     strptime fromisoformat urlparse).
Abbreviation fetch_topics :=
  (NewsFetcher.fetch_topics World clock feedparser_parse newsapi_get
     strptime fromisoformat urlparse).
Abbreviation fetch_all :=
  (NewsFetcher.fetch_all World clock feedparser_parse newsapi_get
     strptime fromisoformat urlparse).

Lemma sub_days_instant t k cutoff :
  sub_days t k = Ok cutoff -> instant cutoff = instant t - k * usec_per_day.
Proof.
  unfold sub_days.
  destruct (negb _); [discriminate|]. destruct (negb _); [discriminate|].
  intros H. inversion H. reflexivity.
Qed.

Lemma sub_days_ok t k :
  -999999999 <= k <= 999999999 ->
  0 <= instant t - k * usec_per_day <= max_instant ->
  sub_days t k = Ok (mkdt (instant t - k * usec_per_day) (aware t)).
Proof.
  intros [H1 H2] [H3 H4]. unfold sub_days.
  rewrite (proj2 (Z.leb_le _ _) H1), (proj2 (Z.leb_le _ _) H2).
  rewrite (proj2 (Z.leb_le _ _) H3), (proj2 (Z.leb_le _ _) H4).
  reflexivity.
Qed.

Lemma fetch_all_unfold news_api_key config st results st' :
  fetch_all news_api_key config st = (Ok results, st') ->
  exists cutoff,
    instant cutoff
    = fst (clock (world st))
      - default 2 (keep_days (settings config)) * usec_per_day /\
    fetch_topics news_api_key cutoff
      (default 10 (max_articles_per_topic (settings config)))
      (topics config) []
      (mkSt (snd (clock (world st))) (seen st))
    = (Ok results, st').
Proof.
  unfold NewsFetcher.fetch_all, mbind, now, lift.
  destruct (clock (world st)) as [t w]. simpl.
  destruct (sub_days (mkdt t true) _) as [cutoff|e] eqn:E; [|discriminate].
  intros H. exists cutoff. split; [|exact H].
  now apply sub_days_instant in E.
Qed.

Lemma fetch_topics_Forall (P : pystr * list Article -> Prop)
    news_api_key cutoff max_articles :
  (forall l final k,
      post_process cutoff max_articles l = Ok final -> P (k, final)) ->
  forall ts results st out st',
    Forall P results ->
    fetch_topics news_api_key cutoff max_articles ts results st
    = (Ok out, st') ->
    Forall P out.
Proof.
  intros HP. induction ts as [|t ts IH]; intros results st out st' Hres H.
  - inversion H. now subst.
  - simpl in H. destruct (collect_topic news_api_key t st) as [l st1].
    destruct (post_process cutoff max_articles l) as [final|e] eqn:E;
      [|discriminate].
    eapply IH; [|exact H]. apply dict_set_Forall; [exact Hres|].
    eapply HP. exact E.
Qed.


(** At the boundary the filter keeps the Article. *)
Lemma filter_recent_keeps_cutoff a cutoff :
  published a = cutoff -> filter_recent cutoff [a] = Ok [a].
Proof.
  intros <-. simpl. unfold ge. rewrite eqb_reflx, Z.leb_refl. reflexivity.
Qed.


(** C9 (amended). A missing topics file is not fatal: [_load_topics] gives
    the empty configuration, on which [fetch_all] returns no topic and the
    run counts zero articles. *)
Theorem missing_topics_file_not_fatal :
  forall news_api_key (st : St),
    clock_in_range clock (world st) ->
    _load_topics (Raise FileNotFoundError) = Ok empty_config /\
    fetch_all news_api_key empty_config st
    = (Ok [], mkSt (snd (clock (world st))) (seen st)) /\
    total_articles [] = O.
Proof.
  intros news_api_key st [Hlo Hhi]. split; [reflexivity|].
  split; [|reflexivity].
  unfold NewsFetcher.fetch_all, mbind, now, lift.
  destruct (clock (world st)) as [t w]. cbn [fst snd] in *.
  change (default 2 (keep_days (settings empty_config))) with 2.
  rewrite (sub_days_ok (mkdt t true) 2); [reflexivity | lia |].
  cbn [instant]. assert (0 < usec_per_day) by reflexivity. lia.
Qed.

(** *** Deduplication *)

Lemma fresh_nil s s' : s ⊆ s' -> fresh s s' [].
Proof.
  intros H. split; [exact H|]. split; [constructor|].
  intros a Ha. inversion Ha.
Qed.

Lemma fresh_app s s1 s2 l1 l2 :
  fresh s s1 l1 -> fresh s1 s2 l2 -> fresh s s2 (l1 ++ l2).
Proof.
  intros (Hs1 & Hn1 & Hl1) (Hs2 & Hn2 & Hl2).
  split; [now transitivity s1|]. split.
  - rewrite map_app. apply NoDup_app. split; [exact Hn1|]. split; [|exact Hn2].
    intros i Hi1 Hi2.
    apply list_elem_of_fmap in Hi1 as (a1 & -> & Ha1).
    apply list_elem_of_fmap in Hi2 as (a2 & E & Ha2).
    destruct (Hl1 a1 Ha1) as [_ Hin]. destruct (Hl2 a2 Ha2) as [Hout _].
    rewrite E in Hin. contradiction.
  - intros a Ha. apply elem_of_app in Ha as [Ha|Ha].
    + destruct (Hl1 a Ha) as [Hout Hin]. split; [exact Hout | auto].
    + destruct (Hl2 a Ha) as [Hout Hin]. split; [auto | exact Hin].
Qed.

Lemma fresh_submseteq s s' l l' : fresh s s' l -> l' ⊆+ l -> fresh s s' l'.
Proof.
  intros (Hs & Hn & H) Hsub. split; [exact Hs|]. split.
  - assert (Hm : map id l' ⊆+ map id l) by now apply fmap_submseteq.
    apply submseteq_Permutation in Hm as [k Hk]. rewrite Hk in Hn.
    now apply NoDup_app in Hn as [Hn _].
  - intros a Ha. apply H. eapply elem_of_submseteq; eassumption.
Qed.

Lemma keeps_seen_lift {A} (r : pyresult A) : keeps_seen (lift World r).
Proof. intros st r' st' H. inversion H. reflexivity. Qed.

Lemma keeps_seen_now : keeps_seen (now World clock).
Proof.
  intros st r st'. unfold now. destruct (clock (world st)).
  intros H. inversion H. reflexivity.
Qed.

Lemma keeps_seen_ret {A} (a : A) : keeps_seen (ret World a).
Proof. intros st r st' H. inversion H. reflexivity. Qed.

Lemma keeps_seen_bind {A B} (m : M World A) (k : A -> M World B) :
  keeps_seen m -> (forall x, keeps_seen (k x)) -> keeps_seen (mbind World m k).
Proof.
  intros Hm Hk st r st'. unfold mbind.
  destruct (m st) as [[a|e] st1] eqn:E; intros H.
  - rewrite (Hk a _ _ _ H). eapply Hm; eassumption.
  - inversion H; subst. eapply Hm; eassumption.
Qed.

Lemma keeps_seen_parse entry :
  keeps_seen (_parse_published_date World clock strptime entry).
Proof.
  unfold _parse_published_date.
  apply keeps_seen_bind; [apply keeps_seen_lift|]. intros [dt|].
  - apply keeps_seen_ret.
  - apply keeps_seen_bind; [apply keeps_seen_lift|]. intros [dt|].
    + apply keeps_seen_ret.
    + apply keeps_seen_now.
Qed.

Lemma appends_fresh_ret_None : appends_fresh (ret World None).
Proof.
  intros st r st' H. inversion H; subst. split; [reflexivity|].
  intros a Ha. discriminate Ha.
Qed.

Lemma appends_fresh_dedup article : appends_fresh (dedup World article).
Proof.
  intros st r st'. unfold dedup. case_bool_decide as Hin; intros H;
    inversion H; subst; simpl.
  - split; [reflexivity|]. intros a Ha. discriminate Ha.
  - split; [apply union_subseteq_r|]. intros a Ha. inversion Ha; subst.
    split; [exact Hin | apply elem_of_union_l, elem_of_singleton_2; reflexivity].
Qed.

Lemma appends_fresh_bind {A} (m : M World A) k :
  keeps_seen m -> (forall x, appends_fresh (k x)) ->
  appends_fresh (mbind World m k).
Proof.
  intros Hm Hk st r st'. unfold mbind.
  destruct (m st) as [[x|e] st1] eqn:E; intros H.
  - rewrite <- (Hm _ _ _ E). eapply Hk; eassumption.
  - inversion H; subst. rewrite (Hm _ _ _ E). split; [reflexivity|].
    intros a Ha. discriminate Ha.
Qed.

Lemma appends_fresh_rss_entry feed_name topic_name entry :
  appends_fresh
    (rss_entry World clock strptime urlparse feed_name topic_name entry).
Proof.
  unfold rss_entry.
  destruct (strip _) as [|c t]; [apply appends_fresh_ret_None|].
  destruct (default [] (entry_link entry)) as [|c' l];
    [apply appends_fresh_ret_None|].
  apply appends_fresh_bind; [apply keeps_seen_lift|]. intros link.
  apply appends_fresh_bind; [apply keeps_seen_parse|]. intros published.
  apply appends_fresh_bind; [apply keeps_seen_lift|]. intros article.
  apply appends_fresh_dedup.
Qed.

Lemma appends_fresh_api_item topic_name item :
  appends_fresh (api_item World clock fromisoformat topic_name item).
Proof.
  unfold api_item.
  apply appends_fresh_bind; [apply keeps_seen_lift|]. intros [|c t];
    [apply appends_fresh_ret_None|].
  destruct (match item_url item with Str s => s | _ => [] end) as [|c' l];
    [apply appends_fresh_ret_None|].
  case_bool_decide; [apply appends_fresh_ret_None|].
  apply appends_fresh_bind; [apply keeps_seen_now|]. intros pub_date.
  apply appends_fresh_bind; [apply keeps_seen_lift|]. intros pub_date'.
  apply appends_fresh_bind; [apply keeps_seen_lift|]. intros source.
  apply appends_fresh_bind; [apply keeps_seen_lift|]. intros summary.
  apply appends_fresh_bind; [apply keeps_seen_lift|]. intros article.
  apply appends_fresh_dedup.
Qed.

Lemma for_append_fresh {X} (body : X -> M World (option Article)) :
  (forall x, appends_fresh (body x)) ->
  forall xs articles st out st',
    for_append World body xs articles st = (out, st') ->
    exists new, out = articles ++ new /\ fresh (seen st) (seen st') new.
Proof.
  intros Hbody. induction xs as [|x xs IH]; intros articles st out st' H.
  - inversion H; subst. exists []. rewrite app_nil_r.
    split; [reflexivity | now apply fresh_nil].
  - simpl in H. destruct (body x st) as [[[a|]|e] st1] eqn:E.
    + destruct (Hbody x _ _ _ E) as [Hsub Ha].
      destruct (Ha a eq_refl) as [Hout Hin].
      apply IH in H as (new & -> & Hnew).
      exists (a :: new). rewrite <- app_assoc. split; [reflexivity|].
      apply (fresh_app _ (seen st1) _ [a] new); [|exact Hnew].
      split; [exact Hsub|]. split; [apply NoDup_singleton|].
      intros a' Ha'. apply list_elem_of_singleton in Ha' as ->. now split.
    + destruct (Hbody x _ _ _ E) as [Hsub _].
      apply IH in H as (new & -> & (Hs & Hn & Hl)).
      exists new. split; [reflexivity|].
      split; [now transitivity (seen st1)|]. split; [exact Hn|].
      intros a Ha. destruct (Hl a Ha) as [Hout Hin].
      split; [auto | exact Hin].
    + inversion H; subst. destruct (Hbody x _ _ _ E) as [Hsub _].
      exists []. rewrite app_nil_r. split; [reflexivity|].
      now apply fresh_nil.
Qed.

Lemma fetch_rss_feed_fresh url name topic_name st arts st' :
  fetch_rss_feed url name topic_name st = (arts, st') ->
  fresh (seen st) (seen st') arts.
Proof.
  unfold NewsFetcher.fetch_rss_feed.
  destruct (feedparser_parse url (world st)) as [[entries|e] w]; intros H.
  - apply for_append_fresh in H as (new & -> & Hnew);
      [exact Hnew | intros x; apply appends_fresh_rss_entry].
  - inversion H; subst. now apply fresh_nil.
Qed.

Lemma fetch_news_api_fresh key kws topic_name st arts st' :
  fetch_news_api key kws topic_name st = (arts, st') ->
  fresh (seen st) (seen st') arts.
Proof.
  unfold NewsFetcher.fetch_news_api.
  destruct key as [[|c k]|]; try (intros H; inversion H; now apply fresh_nil).
  destruct (newsapi_get _ _ (world st)) as [[items|e] w]; intros H.
  - apply for_append_fresh in H as (new & -> & Hnew);
      [exact Hnew | intros x; apply appends_fresh_api_item].
  - inversion H; subst. now apply fresh_nil.
Qed.

Lemma fetch_feeds_fresh topic_name : forall feeds acc st out st',
  fetch_feeds World clock feedparser_parse strptime urlparse topic_name
    feeds acc st = (out, st') ->
  exists new, out = acc ++ new /\ fresh (seen st) (seen st') new.
Proof.
  induction feeds as [|feed feeds IH]; intros acc st out st' H.
  - inversion H; subst. exists []. rewrite app_nil_r.
    split; [reflexivity | now apply fresh_nil].
  - simpl in H. destruct (default [] (feed_url feed)) as [|c url].
    + now apply IH.
    + destruct (NewsFetcher.fetch_rss_feed _ _ _ _ _ _ _ _ st)
        as [arts st1] eqn:E.
      apply fetch_rss_feed_fresh in E.
      apply IH in H as (new & -> & Hnew).
      exists (arts ++ new). rewrite app_assoc. split; [reflexivity|].
      eapply fresh_app; eassumption.
Qed.

Lemma collect_topic_fresh key t st arts st' :
  collect_topic key t st = (arts, st') -> fresh (seen st) (seen st') arts.
Proof.
  unfold NewsFetcher.collect_topic.
  destruct (fetch_feeds _ _ _ _ _ _ _ [] st) as [l st1] eqn:E.
  apply fetch_feeds_fresh in E as (new & -> & Hnew). simpl.
  destruct (keywords t) as [|kw kws];
    [intros H; inversion H; now subst|].
  destruct (length new <? 5)%nat;
    [|intros H; inversion H; now subst].
  destruct (NewsFetcher.fetch_news_api _ _ _ _ _ _ _ st1) as [api st2] eqn:E2.
  apply fetch_news_api_fresh in E2.
  intros H; inversion H; subst. eapply fresh_app; eassumption.
Qed.

Lemma dict_set_all_articles d k v :
  all_articles (dict_set d k v) ⊆+ all_articles d ++ v.
Proof.
  unfold all_articles. induction d as [|[k' v'] d IH]; simpl.
  - now rewrite app_nil_r.
  - case_bool_decide; simpl.
    + transitivity (v' ++ v ++ concat (map snd d));
        [now apply submseteq_inserts_l|].
      apply Permutation_submseteq. rewrite <- app_assoc.
      apply Permutation_app_head, Permutation_app_comm.
    + rewrite <- app_assoc. now apply submseteq_skips_l.
Qed.

Lemma fetch_topics_fresh key cutoff max_articles s0 :
  forall ts results st out st',
    fresh s0 (seen st) (all_articles results) ->
    fetch_topics key cutoff max_articles ts results st = (Ok out, st') ->
    fresh s0 (seen st') (all_articles out).
Proof.
  induction ts as [|t ts IH]; intros results st out st' Hres H.
  - inversion H. now subst.
  - simpl in H. destruct (collect_topic key t st) as [l st1] eqn:E.
    apply collect_topic_fresh in E.
    destruct (post_process cutoff max_articles l) as [final|e] eqn:P;
      [|discriminate].
    apply post_process_spec in P as (_ & _ & _ & Hsub).
    eapply IH; [|exact H].
    eapply fresh_submseteq; [|apply dict_set_all_articles].
    eapply fresh_app; [exact Hres|]. eapply fresh_submseteq; eassumption.
Qed.

(** C5. [dedup] drops an Article whose id is in the per-run set and
    otherwise adds the id and keeps the Article; hence no two Articles of
    the mapping [fetch_all] returns share an id (and none has an id seen
    before the call), and a second fetch of a feed returns no Article whose
    id the first fetch, or anything before it, had seen. *)
Theorem fetch_all_ids_unique :
  (forall a (st : St),
      (id a ∈ seen st -> dedup World a st = (Ok None, st)) /\
      (id a ∉ seen st ->
       dedup World a st
       = (Ok (Some a), mkSt (world st) ({[id a]} ∪ seen st)))) /\
  (forall news_api_key config (st : St) results st',
      fetch_all news_api_key config st = (Ok results, st') ->
      NoDup (map id (all_articles results)) /\
      forall a, a ∈ all_articles results ->
                (id a ∉ seen st) /\ (id a ∈ seen st')) /\
  (forall url name topic_name (st : St) arts1 st1 arts2 st2,
      fetch_rss_feed url name topic_name st = (arts1, st1) ->
      fetch_rss_feed url name topic_name st1 = (arts2, st2) ->
      forall a2, a2 ∈ arts2 ->
                 (id a2 ∉ seen st1) /\ (id a2 ∉ map id arts1)).
Proof.
  split; [|split].
  - intros a st. unfold dedup. split; intros H.
    + now rewrite bool_decide_eq_true_2.
    + now rewrite bool_decide_eq_false_2.
  - intros key config st results st' H.
    apply fetch_all_unfold in H as (c & _ & H).
    apply (fetch_topics_fresh _ _ _ (seen st)) in H as (_ & Hn & Hin);
      [now split|].
    now apply fresh_nil.
  - intros url name topic_name st arts1 st1 arts2 st2 H1 H2 a2 Ha2.
    apply fetch_rss_feed_fresh in H1 as (_ & _ & Hin1).
    apply fetch_rss_feed_fresh in H2 as (_ & _ & Hin2).
    destruct (Hin2 a2 Ha2) as [Hout _]. split; [exact Hout|].
    intros Hi. apply list_elem_of_fmap in Hi as (a1 & E & Ha1).
    destruct (Hin1 a1 Ha1) as [_ Hseen]. rewrite <- E in Hseen.
    contradiction.
Qed.

End FetcherProofs.


Lemma fetch_all_ids_unique_witness :
  exists results st',
    Examples.fetch_all None = (Ok results, st') /\
    NoDup (map NewsFetcher.id (Spec.all_articles results)) /\
    length (Spec.all_articles results) = 2%nat.
Proof.
  assert (E : exists results st',
             Examples.fetch_all None = (Ok results, st') /\
             length (Spec.all_articles results) = 2%nat).
  { eexists _, _. split; vm_compute; reflexivity. }
  destruct E as (results & st' & E & Hlen).
  exists results, st'. split; [exact E|]. split; [|exact Hlen].
  exact (proj1 (proj1 (proj2 (fetch_all_ids_unique Examples.clock
                                Examples.feedparser_parse Examples.newsapi_get
                                Examples.strptime Examples.fromisoformat
                                Examples.urlparse))
                  None _ _ _ _ E)).
Defined.

Lemma missing_topics_file_not_fatal_witness :
  NewsFetcher.fetch_all nat Examples.clock Examples.feedparser_parse
    Examples.newsapi_get Examples.strptime Examples.fromisoformat
    Examples.urlparse None NewsFetcher.empty_config
    (NewsFetcher.mkSt O ∅)
  = (Ok [], NewsFetcher.mkSt 1%nat ∅).
Proof.
  refine (proj1 (proj2 (missing_topics_file_not_fatal Examples.clock
                          Examples.feedparser_parse Examples.newsapi_get
                          Examples.strptime Examples.fromisoformat
                          Examples.urlparse None
                          (NewsFetcher.mkSt O ∅) _))).
  unfold Spec.clock_in_range. vm_compute. split; discriminate.
Defined.

(** C9 as stated fails: only [FileNotFoundError] is handled, a file that
    exists but cannot be read makes the constructor raise. *)
Lemma unreadable_topics_file_counterexample :
  NewsFetcher._load_topics (Raise PermissionError) = Raise PermissionError /\
  ~ (forall e, isinstance e OSError = true ->
               NewsFetcher._load_topics (Raise e)
               = Ok NewsFetcher.empty_config).
Proof.
  split; [reflexivity|]. intros H.
  specialize (H PermissionError eq_refl). discriminate H.
Qed.

(** * Further properties of the code *)

(** ** The summarizer under any response *)

Section SummarizerExtra.
Import NewsFetcher Summarizer Spec Props.

Lemma item_step_in_range batch d k a :
  nth_error batch k = Some a ->
  lookup (str "index") d = Some (PyInt (Z.of_nat (S k))) ->
  item_step batch (PyDict d)
  = Ok (Some (mkSummarized a
                (default (PyStr (title a)) (lookup (str "title") d))
                (default (PyStr []) (lookup (str "summary") d))
                (default (PyList []) (lookup (str "key_points") d)))).
Proof.
  intros Hnth Hidx. unfold item_step, get. rewrite Hidx. simpl.
  assert (Hk : (k < length batch)%nat)
    by (apply nth_error_Some; congruence).
  replace (Z.of_nat (S k) - 1) with (Z.of_nat k) by lia.
  replace ((0 <=? Z.of_nat k) && (Z.of_nat k <? Z.of_nat (length batch)))
    with true by (symmetry; apply andb_true_iff; split; lia).
  unfold index. rewrite Nat2Z.id, Hnth. reflexivity.
Qed.

Lemma item_step_original batch item sa :
  item_step batch item = Ok (Some sa) -> original sa ∈ batch.
Proof.
  unfold item_step.
  destruct (get item (str "index") (PyInt 1)) as [v|e]; [|discriminate].
  simpl. destruct (sub1 v) as [idx|e]; [|discriminate]. simpl.
  destruct (in_range idx (length batch)); [|discriminate].
  unfold index. destruct idx; try discriminate.
  destruct (nth_error batch (Z.to_nat n)) as [a|] eqn:E; [|discriminate].
  simpl.
  destruct (get item (str "title") _) as [t|e]; [|discriminate]. simpl.
  destruct (get item (str "summary") _) as [s|e]; [|discriminate]. simpl.
  destruct (get item (str "key_points") _) as [k|e]; [|discriminate]. simpl.
  intros H. inversion H; subst. simpl.
  apply list_elem_of_In. eapply nth_error_In. exact E.
Qed.

(** Whatever the response, a batch only adds outputs made from its own
    articles. *)
Lemma summarize_one_originals (P : Article -> Prop) batch r summarized :
  (forall a, a ∈ batch -> P a) ->
  Forall (fun sa => P (original sa)) summarized ->
  Forall (fun sa => P (original sa)) (summarize_one batch r summarized).
Proof.
  intros HP H.
  assert (Hfb : Forall (fun sa => P (original sa))
                       (summarized ++ fallback batch)).
  { apply Forall_app. split; [exact H|]. apply Forall_forall.
    intros sa Hsa. unfold fallback in Hsa.
    apply list_elem_of_fmap in Hsa as (a & -> & Ha). now apply HP. }
  assert (Hloop : forall items acc,
             Forall (fun sa => P (original sa)) acc ->
             Forall (fun sa => P (original sa))
                    (fst (items_loop batch items acc))).
  { induction items as [|item items IH]; intros acc Hacc; simpl; [exact Hacc|].
    destruct (item_step batch item) as [[sa|]|e] eqn:E; simpl; auto.
    apply IH. apply Forall_app. split; [exact Hacc|].
    constructor; [|constructor]. eapply HP, item_step_original. exact E. }
  assert (Hmore : forall acc,
             Forall (fun sa => P (original sa)) acc ->
             Forall (fun sa => P (original sa)) (acc ++ fallback batch)).
  { intros acc Hacc. apply Forall_app. split; [exact Hacc|].
    apply Forall_app in Hfb as [_ Hfb]. exact Hfb. }
  destruct r as [e| |[data|e]]; simpl; auto.
  - unfold parse_response.
    destruct (bind (get data (str "articles") (PyList [])) iter)
      as [items|e].
    + pose proof (Hloop items summarized H) as Hl.
      destruct (items_loop batch items summarized) as [out [e|]];
        simpl in Hl; [|exact Hl].
      destruct (isinstance e JSONDecodeError); auto.
    + destruct (isinstance e JSONDecodeError); auto.
  - destruct (isinstance e JSONDecodeError); auto.
Qed.

Lemma summarize_one_fails batch r summarized :
  fails r -> summarize_one batch r summarized = summarized ++ fallback batch.
Proof.
  destruct r as [e| |[data|e]]; simpl; try contradiction; intros _;
    [reflexivity|]. now destruct (isinstance e JSONDecodeError).
Qed.

Lemma elem_of_slice {A} (l : list A) i j x : x ∈ slice l i j -> x ∈ l.
Proof.
  unfold slice. intros H.
  eapply elem_of_submseteq; [exact H|].
  etransitivity; [apply submseteq_take | apply submseteq_drop].
Qed.

Lemma range_step_lt stop step i :
  (0 < step)%nat -> i ∈ range_step stop step -> (i < stop)%nat.
Proof.
  intros Hs Hi. unfold range_step in Hi.
  apply list_elem_of_fmap in Hi as (k & -> & Hk).
  apply elem_of_seq in Hk as [_ Hk]. simpl in Hk.
  pose proof (Nat.div_mod (stop + step - 1) step ltac:(lia)) as Hd.
  pose proof (Nat.mod_upper_bound (stop + step - 1) step ltac:(lia)) as Hm.
  nia.
Qed.

Lemma slice_batch_length {A} (l : list A) bs i :
  (0 < bs)%nat -> (i < length l)%nat ->
  (1 <= length (slice l i (i + bs)) <= bs)%nat.
Proof.
  intros Hbs Hi. unfold slice.
  rewrite length_take, length_drop. lia.
Qed.

Lemma fallback_concat (bs : list (list Article)) :
  concat (map fallback bs) = fallback (concat bs).
Proof.
  induction bs as [|b bs IH]; simpl; [reflexivity|].
  rewrite IH. unfold fallback. now rewrite map_app.
Qed.

Section AnyWorld.

Context {World : Type}.
Variable create : list Article -> World -> response * World.

Lemma batches_loop_originals articles bs : forall starts summarized w,
  Forall (fun sa => original sa ∈ articles) summarized ->
  Forall (fun sa => original sa ∈ articles)
         (fst (batches_loop World create articles bs starts summarized w)).
Proof.
  induction starts as [|i starts IH]; intros summarized w H; simpl; [exact H|].
  destruct (create (slice articles i (i + bs)) w) as [r w'].
  apply IH. apply (summarize_one_originals (fun a => a ∈ articles));
    [intros a; apply elem_of_slice | exact H].
Qed.

Lemma summarize_batch_originals articles w :
  exists out w',
    summarize_batch World create articles 5 w = (Ok out, w') /\
    Forall (fun sa => original sa ∈ articles) out.
Proof.
  unfold summarize_batch. destruct articles as [|a articles].
  - exists [], w. split; [reflexivity | constructor].
  - change (5 =? 0) with false. change (5 <? 0) with false. cbv iota.
    pose proof (batches_loop_originals (a :: articles) (Z.to_nat 5)
                  (range_step (length (a :: articles)) (Z.to_nat 5)) [] w
                  ltac:(constructor)) as H.
    destruct (batches_loop World create (a :: articles) _ _ [] w)
      as [out w'].
    exists out, w'. split; [reflexivity | exact H].
Qed.

(** X1. Whatever the model answers, [summarize_all] returns, and every
    SummarizedArticle of a topic has as its original one of the Articles
    given for that topic: no output is made from nothing or from another
    topic. *)
Theorem summarize_all_originals_from_input :
  forall (articles_by_topic : list (pystr * list Article)) (w : World),
  exists out w',
    summarize_all World create articles_by_topic w = (Ok out, w') /\
    Forall (fun kv' =>
              exists articles,
                (fst kv', articles) ∈ articles_by_topic /\
                Forall (fun sa => original sa ∈ articles) (snd kv'))
           out.
Proof.
  intros by_topic w. unfold summarize_all.
  set (P := fun kv' : pystr * list SummarizedArticle =>
              exists articles,
                (fst kv', articles) ∈ by_topic /\
                Forall (fun sa => original sa ∈ articles) (snd kv')).
  assert (H : forall items results w0,
             (forall kv, kv ∈ items -> kv ∈ by_topic) ->
             Forall P results ->
             exists out w',
               summarize_topics World create items results w0 = (Ok out, w')
               /\ Forall P out).
  { induction items as [|[topic articles] items IH];
      intros results w0 Hsub Hres.
    - exists results, w0. split; [reflexivity | exact Hres].
    - destruct (summarize_batch_originals articles w0)
        as (out & w1 & Hb & Hout).
      simpl. rewrite Hb. apply IH.
      + intros kv Hkv. apply Hsub. now right.
      + apply dict_set_Forall; [exact Hres|].
        exists articles. split; [apply Hsub; left | exact Hout]. }
  apply H; [auto | constructor].
Qed.

Hypothesis create_fails : forall batch w, fails (fst (create batch w)).

Lemma batches_loop_fails articles bs : forall starts summarized w,
  fst (batches_loop World create articles bs starts summarized w)
  = summarized
    ++ fallback (concat (map (fun i => slice articles i (i + bs)) starts)).
Proof.
  induction starts as [|i starts IH]; intros summarized w; simpl.
  - unfold fallback. simpl. now rewrite app_nil_r.
  - pose proof (create_fails (slice articles i (i + bs)) w) as Hr.
    destruct (create (slice articles i (i + bs)) w) as [r w'].
    rewrite IH, (summarize_one_fails _ _ _ Hr), <- app_assoc.
    unfold fallback. now rewrite map_app.
Qed.

Lemma summarize_batch_fails articles w :
  fst (summarize_batch World create articles 5 w) = Ok (fallback articles).
Proof.
  unfold summarize_batch. destruct articles as [|a articles]; [reflexivity|].
  change (5 =? 0) with false. change (5 <? 0) with false. cbv iota.
  change (Z.to_nat 5) with 5%nat.
  pose proof (batches_loop_fails (a :: articles) 5
                (range_step (length (a :: articles)) 5) [] w) as H.
  destruct (batches_loop World create (a :: articles) 5 _ [] w)
    as [out w'].
  cbn [fst] in H |- *. rewrite H. cbn [app].
  now rewrite batches_concat by lia.
Qed.

(** X2. When every request fails (the call raises or the content is not
    JSON), [summarize_all] returns exactly what [main] builds under
    [--skip-summarize]: every Article passed through with its own title and
    summary and no key points. *)
Theorem summarize_all_failing_is_skip :
  forall (articles_by_topic : list (pystr * list Article)) (w : World),
    fst (summarize_all World create articles_by_topic w)
    = Ok (Main.skip_summarize articles_by_topic).
Proof.
  intros by_topic w. unfold summarize_all, Main.skip_summarize.
  generalize (@nil (pystr * list SummarizedArticle)) as results.
  revert w. induction by_topic as [|[topic articles] items IH];
    intros w results; simpl; [reflexivity|].
  pose proof (summarize_batch_fails articles w) as Hb.
  destruct (summarize_batch World create articles 5 w) as [r w1].
  simpl in Hb. subst r. apply IH.
Qed.

End AnyWorld.

Lemma batches_loop_recording respond articles bs : forall starts summarized calls,
  snd (batches_loop _ (recording respond) articles bs starts summarized calls)
  = calls ++ map (fun i => slice articles i (i + bs)) starts.
Proof.
  induction starts as [|i starts IH]; intros summarized calls; simpl.
  - now rewrite app_nil_r.
  - rewrite IH, <- app_assoc. reflexivity.
Qed.

(** X3. [summarize_batch] asks the model once per batch, and the batches it
    sends are the input cut in order into pieces of 1 to [batch_size]
    Articles: every Article is sent exactly once. *)
Theorem summarize_batch_sends_each_article_once :
  forall respond (articles : list Article) (batch_size : Z),
    0 < batch_size ->
    let calls :=
      snd (summarize_batch _ (recording respond) articles batch_size []) in
    concat calls = articles /\
    Forall (fun batch =>
              (1 <= length batch)%nat /\ Z.of_nat (length batch) <= batch_size)
           calls.
Proof.
  intros respond articles bs Hbs calls. subst calls.
  unfold summarize_batch. destruct articles as [|a articles].
  - split; [reflexivity | constructor].
  - destruct (Z.eqb_spec bs 0) as [E0|_]; [lia|].
    destruct (Z.ltb_spec bs 0) as [E1|_]; [lia|].
    pose proof (batches_loop_recording respond (a :: articles) (Z.to_nat bs)
                  (range_step (length (a :: articles)) (Z.to_nat bs)) [] [])
      as H.
    destruct (batches_loop _ (recording respond) (a :: articles) _ _ [] [])
      as [out calls].
    simpl snd in *. subst calls. simpl app. split.
    + apply (batches_concat (a :: articles) (Z.to_nat bs)). lia.
    + apply Forall_forall. intros batch Hb.
      apply list_elem_of_fmap in Hb as (i & -> & Hi).
      apply (range_step_lt (length (a :: articles))) in Hi; [|lia].
      pose proof (slice_batch_length (a :: articles) (Z.to_nat bs) i
                    ltac:(lia) Hi) as [H1 H2].
      split; [exact H1 | lia].
Qed.

Lemma articles_text_block : forall batch k a i,
  nth_error batch k = Some a ->
  exists pre post,
    articles_text_from i batch = pre ++ article_block (i + k) a ++ post.
Proof.
  induction batch as [|b batch IH]; intros [|k] a i Hnth; simpl in Hnth;
    try discriminate.
  - inversion Hnth; subst. exists [], (articles_text_from (S i) batch).
    cbn [articles_text_from app]. now rewrite Nat.add_0_r.
  - destruct (IH k a (S i) Hnth) as (pre & post & E).
    exists (article_block i b ++ pre), post.
    cbn [articles_text_from]. rewrite E.
    replace (S i + k)%nat with (i + S k)%nat by lia.
    now rewrite <- app_assoc.
Qed.

(** What [article_block] writes, character by character. *)
Lemma article_block_text i a :
  article_block i a =
    [10] ++ str "Article " ++ decimal i ++ str ":" ++ [10]
    ++ str "Title: " ++ title a ++ [10]
    ++ str "Source: " ++ source a ++ [10]
    ++ str "Summary: "
    ++ match summary a with
       | [] => str "No summary available"
       | _ :: _ => firstn 300 (summary a)
       end ++ [10]
    ++ str "---" ++ [10].
Proof.
  unfold article_block, unlines, newline, excerpt, slice_to.
  cbn [flat_map]. rewrite app_nil_r, <- !app_assoc.
  change (0 <=? 300) with true. cbv iota.
  change (Z.to_nat 300) with 300%nat.
  destruct (summary a); reflexivity.
Qed.

(** [decimal] writes the decimal numeral: digits only, read back by
    Horner's rule they give the number, and the first one is not a zero
    unless the number is. *)
Lemma digits_are_digits fuel : forall n acc,
  forallb is_digit acc = true -> forallb is_digit (digits fuel n acc) = true.
Proof.
  induction fuel as [|fuel IH]; intros n acc Hacc; simpl; [exact Hacc|].
  assert (Hd : forallb is_digit ((48 + Z.of_nat (n mod 10)) :: acc) = true).
  { simpl. rewrite Hacc, andb_true_r. unfold is_digit.
    pose proof (Nat.mod_upper_bound n 10 ltac:(lia)).
    apply andb_true_intro. split; [apply Z.leb_le | apply Z.leb_le]; lia. }
  destruct (n <? 10)%nat; [exact Hd | now apply IH].
Qed.

Lemma digits_value fuel : forall n acc,
  (n < fuel)%nat ->
  fold_left (fun v c => 10 * v + (c - 48)) (digits fuel n acc) 0
  = fold_left (fun v c => 10 * v + (c - 48)) acc (Z.of_nat n).
Proof.
  induction fuel as [|fuel IH]; intros n acc Hn; [lia|].
  cbn [digits]. destruct (n <? 10)%nat eqn:E.
  - apply Nat.ltb_lt in E. cbn [fold_left]. f_equal.
    rewrite Nat.mod_small by exact E. lia.
  - apply Nat.ltb_ge in E.
    assert (Hdiv : (n / 10 < fuel)%nat).
    { pose proof (Nat.div_lt n 10 ltac:(lia) ltac:(lia)). lia. }
    rewrite (IH _ _ Hdiv). cbn [fold_left]. f_equal.
    pose proof (Nat.div_mod_eq n 10) as Hdm. lia.
Qed.

Lemma digits_head fuel : forall n acc,
  (n < fuel)%nat -> (0 < n)%nat -> hd 0 (digits fuel n acc) <> 48.
Proof.
  induction fuel as [|fuel IH]; intros n acc Hn Hpos; [lia|].
  cbn [digits]. destruct (n <? 10)%nat eqn:E.
  - apply Nat.ltb_lt in E. cbn [hd]. rewrite Nat.mod_small by exact E. lia.
  - apply Nat.ltb_ge in E. apply IH.
    + pose proof (Nat.div_lt n 10 ltac:(lia) ltac:(lia)). lia.
    + pose proof (Nat.div_str_pos n 10 ltac:(lia)). lia.
Qed.

(** X4. [_create_prompt] announces the Article at position [k] of the batch
    (counted from 0) as [Article k+1:], followed by its title, source and
    summary excerpt; the numeral written is the decimal form of [k+1]; and
    [k+1] is the [index] that makes the response parser pick that same
    Article: an element carrying it yields a SummarizedArticle of that
    Article, with the original title standing in for a missing title, the
    empty string for a missing summary and the empty list for missing key
    points. *)
Theorem prompt_number_is_response_index :
  forall (batch : list Article) (k : nat) (a : Article),
    nth_error batch k = Some a ->
    (exists pre post,
        _create_prompt batch =
          pre
          ++ [10] ++ str "Article " ++ decimal (S k) ++ str ":" ++ [10]
          ++ str "Title: " ++ title a ++ [10]
          ++ str "Source: " ++ source a ++ [10]
          ++ str "Summary: "
          ++ match summary a with
             | [] => str "No summary available"
             | _ :: _ => firstn 300 (summary a)
             end ++ [10]
          ++ str "---" ++ [10]
          ++ post) /\
    (forallb (fun c => (48 <=? c) && (c <=? 57)) (decimal (S k)) = true /\
     hd 0 (decimal (S k)) <> 48 /\
     fold_left (fun v c => 10 * v + (c - 48)) (decimal (S k)) 0
     = Z.of_nat (S k)) /\
    forall d,
      lookup (str "index") d = Some (PyInt (Z.of_nat (S k))) ->
      item_step batch (PyDict d)
      = Ok (Some (mkSummarized a
                    (default (PyStr (title a)) (lookup (str "title") d))
                    (default (PyStr []) (lookup (str "summary") d))
                    (default (PyList []) (lookup (str "key_points") d)))).
Proof.
  intros batch k a Hnth. split; [|split].
  - destruct (articles_text_block batch k a 1 Hnth) as (pre & post & E).
    exists (prompt_head ++ pre), (post ++ prompt_tail).
    unfold _create_prompt. rewrite E, article_block_text.
    now rewrite <- !app_assoc.
  - unfold decimal. split; [|split].
    + apply (digits_are_digits (S (S k)) (S k) []). reflexivity.
    + apply digits_head; lia.
    + rewrite digits_value by lia. reflexivity.
  - intros d Hidx. exact (item_step_in_range batch d k a Hnth Hidx).
Qed.

End SummarizerExtra.

(** ** Strings, tags and fingerprints *)

Section TextExtra.
Import NewsFetcher Spec Props.

(** *** [str.strip] *)

Lemma lstrip_suffix s : exists p, s = p ++ lstrip s /\ forallb isspace p = true.
Proof.
  induction s as [|c s (p & E & Hp)]; simpl; [now exists []|].
  destruct (isspace c) eqn:Hc.
  - exists (c :: p). simpl. rewrite Hc, Hp. split; [now f_equal | reflexivity].
  - now exists [].
Qed.

Lemma lstrip_no_leading_space s : no_leading_space (lstrip s).
Proof.
  induction s as [|c s IH]; simpl; [exact I|].
  destruct (isspace c) eqn:Hc; [exact IH | exact Hc].
Qed.

Lemma lstrip_id s : no_leading_space s -> lstrip s = s.
Proof. destruct s as [|c s]; simpl; [reflexivity|]. now intros ->. Qed.

Lemma lstrip_nil s : lstrip s = [] <-> forallb isspace s = true.
Proof.
  induction s as [|c s IH]; simpl; [tauto|].
  destruct (isspace c); simpl; [exact IH|]. split; discriminate.
Qed.

Lemma forallb_rev {A} (p : A -> bool) l :
  forallb p (rev l) = forallb p l.
Proof.
  induction l as [|x l IH]; simpl; [reflexivity|].
  rewrite forallb_app, IH. simpl. rewrite andb_true_r. apply andb_comm.
Qed.

Lemma strip_nil s : strip s = [] <-> forallb isspace s = true.
Proof.
  unfold strip. split.
  - intros H. apply (f_equal (@rev Z)) in H. rewrite rev_involutive in H.
    simpl in H. apply lstrip_nil in H. rewrite forallb_rev in H.
    destruct (lstrip s) as [|c r] eqn:E; [now apply lstrip_nil|].
    pose proof (lstrip_no_leading_space s) as Hc. rewrite E in Hc.
    simpl in Hc, H. rewrite Hc in H. discriminate.
  - intros H. apply lstrip_nil in H. rewrite H. reflexivity.
Qed.

Lemma strip_no_leading_space s : no_leading_space (strip s).
Proof.
  unfold strip. pose proof (lstrip_no_leading_space s) as Hx.
  destruct (lstrip_suffix (rev (lstrip s))) as (p & E & _).
  set (y := lstrip (rev (lstrip s))) in *.
  apply (f_equal (@rev Z)) in E. rewrite rev_involutive, rev_app_distr in E.
  destruct (rev y) as [|c r]; [exact I|]. rewrite E in Hx. exact Hx.
Qed.

Lemma strip_idempotent s : strip (strip s) = strip s.
Proof.
  pose proof (strip_no_leading_space s) as H1.
  unfold strip at 1. rewrite (lstrip_id _ H1).
  unfold strip. rewrite rev_involutive.
  rewrite (lstrip_id _ (lstrip_no_leading_space _)). reflexivity.
Qed.

(** *** The tag pass *)

Lemma strip_tags_from_twice : forall s n,
  strip_tags_from O (strip_tags_from n s) = strip_tags_from n s.
Proof.
  induction s as [|c s IH]; intros n; [now destruct n|].
  destruct n as [|n]; [|simpl; apply IH].
  simpl. destruct (c =? 60) eqn:Hc.
  - destruct (tag_rest s) as [[|k]|] eqn:Ht.
    + assert (Ht' : tag_rest (strip_tags_from O s) = Some O).
      { destruct s as [|c' s']; [discriminate|]. simpl in Ht |- *.
        destruct (Z.eqb_spec c' 62) as [->|_];
          [reflexivity | destruct (tag_rest s'); discriminate]. }
      cbn [strip_tags_from]. rewrite Hc, Ht', (IH O). reflexivity.
    + apply IH.
    + simpl. rewrite Hc.
      assert (Hgt : ~ In 62 s).
      { clear -Ht. induction s as [|x s IH]; simpl in *; [tauto|].
        destruct (Z.eqb_spec x 62); [discriminate|].
        destruct (tag_rest s); [discriminate|].
        intros [->|Hin]; [congruence | now apply IH]. }
      rewrite !(strip_tags_no_gt s Hgt), (tag_rest_none s Hgt).
      reflexivity.
  - simpl. rewrite Hc. f_equal. apply (IH O).
Qed.

Lemma strip_tags_from_sublist : forall s n,
  strip_tags_from n s `sublist_of` s.
Proof.
  induction s as [|c s IH]; intros n; simpl; [constructor|].
  destruct n as [|n]; [|apply sublist_cons, IH].
  destruct (c =? 60).
  - destruct (tag_rest s) as [[|k]|];
      [apply sublist_skip, IH | apply sublist_cons, IH
       | apply sublist_skip, IH].
  - apply sublist_skip, IH.
Qed.

(** X5. The tag pass only deletes characters, and a second pass finds
    nothing left to delete: what [_extract_summary] returns holds no
    [<...>] tag any more. *)
Theorem strip_tags_only_deletes_and_is_stable :
  forall s : pystr,
    strip_tags s `sublist_of` s /\
    (length (strip_tags s) <= length s)%nat /\
    strip_tags (strip_tags s) = strip_tags s.
Proof.
  intros s. unfold strip_tags. split; [apply strip_tags_from_sublist|].
  split; [apply sublist_length, strip_tags_from_sublist|].
  apply strip_tags_from_twice.
Qed.

(** *** The time zone abbreviation *)

Lemma span_app_stop (p : Z -> bool) l1 l2 :
  forallb p l1 = true ->
  match l2 with [] => True | c :: _ => p c = false end ->
  span p (l1 ++ l2) = (l1, l2).
Proof.
  intros H1 H2. induction l1 as [|x l1 IH]; simpl in *.
  - destruct l2 as [|c l2]; simpl; [reflexivity|]. now rewrite H2.
  - apply andb_prop in H1 as [Hx H1]. rewrite Hx, (IH H1). reflexivity.
Qed.

Lemma isspace_not_upper c : isspace c = true -> isupper_ascii c = false.
Proof.
  unfold isspace, isupper_ascii. intros H.
  destruct (Z.leb_spec 65 c); [|reflexivity].
  destruct (Z.leb_spec c 90); [|reflexivity]. exfalso.
  repeat (apply orb_prop in H as [H|H]);
    repeat match goal with
           | H : _ && _ = true |- _ => apply andb_prop in H as [? ?]
           end; lia.
Qed.

(** X6. A date text that ends in white space followed by three or four
    capital letters, such as [ GMT] or [ AEDT], loses exactly that tail
    before the formats are tried; the text in front of it is kept as it
    is. *)
Theorem strip_tz_abbrev_drops_abbreviation :
  forall front ws caps : pystr,
    no_leading_space (rev front) ->
    ws <> [] -> forallb isspace ws = true ->
    forallb isupper_ascii caps = true ->
    (length caps = 3 \/ length caps = 4)%nat ->
    strip_tz_abbrev (front ++ ws ++ caps) = front.
Proof.
  intros front ws caps Hfront Hws Hspace Hcaps Hlen.
  unfold strip_tz_abbrev. rewrite !rev_app_distr, <- app_assoc.
  assert (Hrc : forallb isupper_ascii (rev caps) = true)
    by now rewrite forallb_rev.
  assert (Hrw : forallb isspace (rev ws) = true) by now rewrite forallb_rev.
  assert (Hlc : length (rev caps) = length caps) by apply length_rev.
  destruct (rev caps) as [|c0 rc] eqn:Ec;
    [simpl in Hlc; destruct Hlen; lia|].
  assert (c0 <> 10).
  { intros ->. simpl in Hrc. discriminate. }
  destruct (rev ws) as [|w0 rw] eqn:Ew.
  { apply (f_equal (@rev Z)) in Ew. rewrite rev_involutive in Ew.
    contradiction. }
  assert (Hstart : match (c0 :: rc) ++ (w0 :: rw) ++ rev front with
                   | 10 :: r' => ([10], r')
                   | _ => ([], (c0 :: rc) ++ (w0 :: rw) ++ rev front)
                   end = ([], (c0 :: rc) ++ (w0 :: rw) ++ rev front)).
  { simpl. destruct c0 as [|p|p]; try reflexivity.
    do 4 (destruct p as [p|p|]; try reflexivity). congruence. }
  rewrite Hstart.
  rewrite (span_app_stop isupper_ascii (c0 :: rc) ((w0 :: rw) ++ rev front)
             Hrc).
  2:{ simpl. apply isspace_not_upper. simpl in Hrw.
      now apply andb_prop in Hrw as [-> _]. }
  cbn [app]. rewrite Hlc.
  assert (Hn : ((length caps =? 3)%nat || (length caps =? 4)%nat) = true)
    by (destruct Hlen as [-> | ->]; reflexivity).
  rewrite Hn. simpl in Hrw. pose proof Hrw as Hrw'.
  apply andb_prop in Hrw' as [Hw0 _]. rewrite Hw0. cbn [andb].
  change (w0 :: rw ++ rev front) with ((w0 :: rw) ++ rev front).
  rewrite (span_app_stop isspace (w0 :: rw) (rev front) Hrw Hfront).
  cbn [snd]. now rewrite rev_involutive, app_nil_r.
Qed.

(** *** The fingerprint *)

Lemma land_255_range x : 0 <= Z.land x 255 < 256.
Proof.
  change 255 with (Z.ones 8). rewrite Z.land_ones by lia.
  apply Z.mod_pos_bound. reflexivity.
Qed.

Lemma hexdigit_is_hex n : 0 <= n < 16 -> hex_lower (Hashlib.hexdigit n) = true.
Proof.
  intros H. unfold Hashlib.hexdigit, hex_lower.
  destruct (Z.ltb_spec n 10).
  - replace (48 <=? 48 + n) with true by (symmetry; apply Z.leb_le; lia).
    replace (48 + n <=? 57) with true by (symmetry; apply Z.leb_le; lia).
    reflexivity.
  - replace (97 <=? 87 + n) with true by (symmetry; apply Z.leb_le; lia).
    replace (87 + n <=? 102) with true by (symmetry; apply Z.leb_le; lia).
    apply orb_true_r.
Qed.

Lemma hex_of_byte_is_hex b :
  0 <= b < 256 -> forallb hex_lower (Hashlib.hex_of_byte b) = true.
Proof.
  intros H. unfold Hashlib.hex_of_byte. cbn [forallb].
  rewrite !hexdigit_is_hex; [reflexivity | |].
  - change 15 with (Z.ones 4). rewrite Z.land_ones by lia.
    apply Z.mod_pos_bound. reflexivity.
  - rewrite Z.shiftr_div_pow2 by lia. change (2 ^ 4) with 16.
    split; [apply Z.div_pos; lia | apply Z.div_lt_upper_bound; lia].
Qed.

Lemma bytes_of_word_range n x :
  Forall (fun b => 0 <= b < 256) (Hashlib.bytes_of_word n x).
Proof.
  unfold Hashlib.bytes_of_word. apply Forall_forall. intros b Hb.
  apply list_elem_of_fmap in Hb as (k & -> & _). apply land_255_range.
Qed.

Lemma md5_hexdigest_is_hex data :
  forallb hex_lower (Hashlib.md5_hexdigest data) = true.
Proof.
  unfold Hashlib.md5_hexdigest, Hashlib.digest.
  set (st := fold_left Hashlib.compress _ _).
  assert (H : Forall (fun b => 0 <= b < 256)
                (Hashlib.bytes_of_word 4 (Hashlib.sa st) ++
                 Hashlib.bytes_of_word 4 (Hashlib.sb st) ++
                 Hashlib.bytes_of_word 4 (Hashlib.sc st) ++
                 Hashlib.bytes_of_word 4 (Hashlib.sd st)))
    by (repeat (apply Forall_app; split); apply bytes_of_word_range).
  induction H as [|b l Hb _ IH]; [reflexivity|].
  cbn [flat_map]. rewrite forallb_app, IH, (hex_of_byte_is_hex b Hb).
  reflexivity.
Qed.

Lemma forallb_firstn {A} (p : A -> bool) n : forall l,
  forallb p l = true -> forallb p (firstn n l) = true.
Proof.
  induction n as [|n IH]; intros [|x l]; simpl; try reflexivity.
  intros H. apply andb_prop in H as [-> H]. simpl. now apply IH.
Qed.

Lemma encodable_spec c :
  encodable c = true <-> (0 <= c < 55296 \/ 57343 < c <= 1114111).
Proof.
  unfold encodable.
  rewrite orb_true_iff, !andb_true_iff, !Z.leb_le, !Z.ltb_lt. tauto.
Qed.

Ltac case_cmp :=
  repeat match goal with
         | |- context [?a <? ?b] => destruct (Z.ltb_spec a b)
         | |- context [?a <=? ?b] => destruct (Z.leb_spec a b)
         end.

Lemma encode_char_encodable c :
  encodable c = true -> exists bs, Hashlib.encode_char c = Ok bs.
Proof.
  intros H%encodable_spec. unfold Hashlib.encode_char.
  case_cmp; simpl; eauto; lia.
Qed.

Lemma encode_char_not_encodable c :
  encodable c = false -> Hashlib.encode_char c = Raise UnicodeEncodeError.
Proof.
  intros H. apply not_true_iff_false in H.
  unfold Hashlib.encode_char.
  case_cmp; simpl; try reflexivity; exfalso; apply H, encodable_spec; lia.
Qed.

Lemma encode_total s :
  if forallb encodable s
  then exists bs, Hashlib.encode s = Ok bs
  else Hashlib.encode s = Raise UnicodeEncodeError.
Proof.
  induction s as [|c s IH]; simpl; [eauto|].
  destruct (encodable c) eqn:Hc; simpl.
  - destruct (encode_char_encodable c Hc) as [bs ->]. simpl.
    destruct (forallb encodable s).
    + destruct IH as [rest ->]. simpl. eauto.
    + rewrite IH. reflexivity.
  - rewrite (encode_char_not_encodable c Hc). reflexivity.
Qed.

(** X7. Building an Article with the default id succeeds exactly when
    every character of title and link is a Unicode scalar value, and
    raises [UnicodeEncodeError] otherwise (a lone surrogate cannot be
    encoded).  The id it computes is 12 lower-case hexadecimal digits. *)
Theorem new_Article_succeeds_iff_encodable :
  forall t l s p su ai tp,
    if forallb encodable (t ++ l)
    then exists a,
        new_Article t l s p su ai tp [] = Ok a /\
        length (id a) = 12%nat /\ forallb hex_lower (id a) = true
    else new_Article t l s p su ai tp [] = Raise UnicodeEncodeError.
Proof.
  intros t l s p su ai tp. pose proof (encode_total (t ++ l)) as H.
  unfold new_Article, __post_init__, fingerprint. cbn [id title link].
  destruct (forallb encodable (t ++ l)).
  - destruct H as [bs ->]. simpl. eexists. split; [reflexivity|].
    cbn [id]. unfold slice_to. change (0 <=? 12) with true. cbv iota.
    split.
    + rewrite length_firstn, length_md5_hexdigest. reflexivity.
    + apply forallb_firstn, md5_hexdigest_is_hex.
  - rewrite H. reflexivity.
Qed.

End TextExtra.

(** ** The collector: what it appends, when it raises, what it keeps *)

Section FetcherExtra.
Import NewsFetcher Spec Props.

Context {World : Type}.
Variable clock : World -> Z * World.
Variable feedparser_parse : pystr -> World -> pyresult (list Entry) * World.
Variable newsapi_get : pystr -> pystr -> World -> pyresult (list Item) * World.
Variable strptime : pystr -> pystr -> option datetime.
Variable fromisoformat : pystr -> option datetime.
Variable urlparse : pystr -> pyresult unit.

Abbreviation St := (NewsFetcher.St World).
Abbreviation seen := (@seen_ids World).
Abbreviation rss_entry :=
  (NewsFetcher.rss_entry World clock strptime urlparse).
Abbreviation api_item := (NewsFetcher.api_item World clock fromisoformat).
Abbreviation fetch_rss_feed :=
  (NewsFetcher.fetch_rss_feed World clock feedparser_parse strptime urlparse).
Abbreviation fetch_news_api :=
  (NewsFetcher.fetch_news_api World clock newsapi_get fromisoformat).
Abbreviation fetch_feeds :=
  (NewsFetcher.fetch_feeds World clock feedparser_parse strptime urlparse).
Abbreviation collect_topic :=
  (NewsFetcher.collect_topic World clock feedparser_parse newsapi_get
     strptime fromisoformat urlparse).
Abbreviation fetch_topics :=
  (NewsFetcher.fetch_topics World clock feedparser_parse newsapi_get
     strptime fromisoformat urlparse).
Abbreviation fetch_all :=
  (NewsFetcher.fetch_all World clock feedparser_parse newsapi_get
     strptime fromisoformat urlparse).
Abbreviation fetch_topics_loaded :=
  (NewsFetcher.fetch_topics_loaded World clock feedparser_parse newsapi_get
     strptime fromisoformat urlparse).
Abbreviation fetch_all_loaded :=
  (NewsFetcher.fetch_all_loaded World clock feedparser_parse newsapi_get
     strptime fromisoformat urlparse).

(** *** What an appended Article looks like *)

Lemma for_return_Some {X A} (body : X -> pyresult (option A)) xs v :
  for_return xs body = Ok (Some v) -> exists x, In x xs /\ body x = Ok (Some v).
Proof.
  induction xs as [|x xs IH]; simpl; [discriminate|].
  destruct (body x) as [[v'|]|e] eqn:E; intros H; try discriminate.
  - inversion H; subst. exists x. split; [now left | exact E].
  - destruct (IH H) as (y & Hy & Ey). exists y. split; [now right | exact Ey].
Qed.

Lemma datetime_utc_aware t dt : datetime_utc t = Ok dt -> aware dt = true.
Proof.
  unfold datetime_utc. destruct (negb (forallb c_int t)); [discriminate|].
  destruct t as [|y [|m [|d rest]]]; try discriminate.
  repeat match goal with
         | |- context [if negb ?b then _ else _] => destruct (negb b)
         end; try discriminate.
  intros H. inversion H. reflexivity.
Qed.

Lemma parse_published_date_aware entry (st : St) dt st' :
  _parse_published_date World clock strptime entry st = (Ok dt, st') ->
  aware dt = true.
Proof.
  unfold _parse_published_date, mbind, lift, ret.
  destruct (for_return [published_parsed; updated_parsed; created_parsed] _)
    as [[d1|]|e] eqn:E1; try discriminate.
  - intros H. inversion H; subst.
    apply for_return_Some in E1 as (f & _ & Hf). unfold parsed_body in Hf.
    destruct (entry_date entry f) as [[|x t]|]; try discriminate.
    destruct (datetime_utc (slice_to (x :: t) 6)) as [d|e] eqn:D.
    + simpl in Hf. inversion Hf; subst. eapply datetime_utc_aware, D.
    + simpl in Hf.
      destruct (isinstance e TypeError || (isinstance e ValueError || false));
        discriminate.
  - destruct (for_return [published_str; updated_str; created_str] _)
      as [[d2|]|e] eqn:E2; try discriminate.
    + intros H. inversion H; subst.
      apply for_return_Some in E2 as (f & _ & Hf). unfold string_body in Hf.
      destruct (entry_date_str entry f) as [[|x s]|]; try discriminate.
      destruct (for_return date_formats _) as [[d|]|e] eqn:E3;
        simpl in Hf; try discriminate.
      * inversion Hf; subst.
        apply for_return_Some in E3 as (fmt & _ & Hfmt).
        unfold format_body in Hfmt.
        destruct (strptime _ fmt) as [d0|]; simpl in Hfmt;
          [|discriminate].
        inversion Hfmt. destruct (aware d0) eqn:Ha; [exact Ha | reflexivity].
      * destruct (isinstance e Exception || false); discriminate.
    + unfold now. destruct (clock (world st)).
      intros H. inversion H. reflexivity.
Qed.

Lemma clean_url_same url url' :
  _clean_google_news_url urlparse url = Ok url' -> url' = url.
Proof.
  unfold _clean_google_news_url. destruct (contains _ url).
  - destruct (urlparse url); simpl; intros H; inversion H. reflexivity.
  - intros H. inversion H. reflexivity.
Qed.

Lemma extract_summary_length entry : (length (_extract_summary entry) <= 500)%nat.
Proof.
  rewrite extract_summary_refines. unfold extract_summary_spec.
  destruct (first_nonempty (candidates entry)); [|simpl; lia].
  rewrite length_firstn. lia.
Qed.

Lemma dedup_same article (st : St) a st' :
  dedup World article st = (Ok (Some a), st') -> a = article.
Proof.
  unfold dedup. case_bool_decide as Hin; intros E; inversion E. reflexivity.
Qed.

Lemma rss_entry_article feed_name topic_name entry (st : St) a st' :
  rss_entry feed_name topic_name entry st = (Ok (Some a), st') ->
  rss_article feed_name topic_name a.
Proof.
  unfold NewsFetcher.rss_entry.
  destruct (strip (default [] (entry_title entry))) as [|c t] eqn:Et;
    [discriminate|].
  destruct (default [] (entry_link entry)) as [|c' l] eqn:El;
    [discriminate|].
  unfold mbind, lift.
  destruct (_clean_google_news_url urlparse (c' :: l)) as [link'|e] eqn:Ec;
    [|discriminate].
  apply clean_url_same in Ec. subst link'.
  destruct (_parse_published_date World clock strptime entry st)
    as [[dt|e] st1] eqn:Ep; [|discriminate].
  apply parse_published_date_aware in Ep.
  destruct (new_Article (c :: t) (c' :: l) feed_name dt
              (_extract_summary entry) [] topic_name []) as [a0|e] eqn:En;
    [|discriminate].
  apply new_Article_default_id in En as [Hf Ha0].
  intros H. apply dedup_same in H. subst a. rewrite Ha0 in *. clear Ha0.
  cbn [id] in Hf. unfold rss_article.
  cbn [title link source topic ai_summary summary published id].
  repeat split; try discriminate; try assumption.
  - rewrite <- Et. apply strip_idempotent.
  - apply extract_summary_length.
Qed.

Lemma slice_to_500_length (s : pystr) : (length (slice_to s 500) <= 500)%nat.
Proof.
  unfold slice_to. change (0 <=? 500) with true. cbv iota.
  rewrite length_firstn. lia.
Qed.

Lemma api_item_article topic_name item (st : St) a st' :
  api_item topic_name item st = (Ok (Some a), st') ->
  api_article topic_name a.
Proof.
  unfold NewsFetcher.api_item, mbind, lift.
  destruct (match item_title item with
            | Absent => Ok []
            | Null => Raise AttributeError
            | Str s => Ok (strip s)
            end) as [[|c t]|e] eqn:Et; try discriminate.
  destruct (match item_url item with Str s => s | _ => [] end)
    as [|c' l]; [discriminate|].
  case_bool_decide as Hrem; [discriminate|].
  unfold now. destruct (clock (world st)) as [t0 w0].
  destruct (match item_publishedAt item with
            | Str (_ :: _ as s) => _
            | _ => _
            end) as [pub|e]; [|discriminate].
  destruct (match item_source item with
            | SrcAbsent => _ | SrcNull => _ | SrcObj name => _
            end) as [src|e]; [|discriminate].
  destruct (match item_description item with
            | Absent => Ok [] | Null => _ | Str s => _
            end) as [sm|e] eqn:Es; [|discriminate].
  destruct (new_Article (c :: t) (c' :: l) src pub sm [] topic_name [])
    as [a0|e] eqn:En; [|discriminate].
  apply new_Article_default_id in En as [Hf Ha0].
  intros H. apply dedup_same in H. subst a. rewrite Ha0 in *. clear Ha0.
  cbn [id] in Hf. unfold api_article.
  cbn [title link source topic ai_summary summary published id].
  repeat split; try discriminate; try assumption.
  - destruct (item_title item) as [| |s]; try discriminate.
    injection Et as Hs. rewrite <- Hs. apply strip_idempotent.
  - destruct (item_description item) as [| |s]; inversion Es;
      [simpl; lia | apply slice_to_500_length].
Qed.

Lemma for_append_Forall {X} (P : Article -> Prop)
    (body : X -> M World (option Article)) :
  (forall x st a st', body x st = (Ok (Some a), st') -> P a) ->
  forall xs articles st out st',
    for_append World body xs articles st = (out, st') ->
    exists new,
      out = articles ++ new /\ Forall P new /\
      (length new <= length xs)%nat.
Proof.
  intros HP. induction xs as [|x xs IH]; intros articles st out st' H.
  - inversion H; subst. exists []. rewrite app_nil_r.
    split; [reflexivity|]. split; [constructor | simpl; lia].
  - simpl in H. destruct (body x st) as [[[a|]|e] st1] eqn:E.
    + apply HP in E. apply IH in H as (new & -> & HF & Hlen).
      exists (a :: new). rewrite <- app_assoc.
      split; [reflexivity|]. split; [now constructor | simpl; lia].
    + apply IH in H as (new & -> & HF & Hlen).
      exists new. split; [reflexivity|]. split; [exact HF | simpl; lia].
    + inversion H; subst. exists []. rewrite app_nil_r.
      split; [reflexivity|]. split; [constructor | simpl; lia].
Qed.

Lemma slice_to_20_length {A} (l : list A) : (length (slice_to l 20) <= 20)%nat.
Proof.
  unfold slice_to. change (0 <=? 20) with true. cbv iota.
  rewrite length_firstn. lia.
Qed.

Lemma fetch_rss_feed_spec feed_url feed_name topic_name (st : St) :
  exists arts st',
    fetch_rss_feed feed_url feed_name topic_name st = (arts, st') /\
    (length arts <= 20)%nat /\
    Forall (rss_article feed_name topic_name) arts.
Proof.
  revert feed_url feed_name topic_name st.
  intros url name tp st. unfold NewsFetcher.fetch_rss_feed.
  destruct (feedparser_parse url (world st)) as [[entries|e] w].
  - destruct (for_append World (rss_entry name tp) (slice_to entries 20) []
                (mkSt w (seen st))) as [arts st'] eqn:E.
    exists arts, st'. split; [reflexivity|].
    apply (for_append_Forall (rss_article name tp)) in E
      as (new & -> & HF & Hlen).
    + simpl. split; [|exact HF].
      pose proof (slice_to_20_length entries). lia.
    + intros x st0 a st1. apply rss_entry_article.
  - eexists _, _. split; [reflexivity|]. split; [simpl; lia | constructor].
Qed.

Lemma fetch_news_api_spec news_api_key keywords topic_name (st : St) :
  (no_api_key news_api_key ->
   fetch_news_api news_api_key keywords topic_name st = ([], st)) /\
  exists arts st',
    fetch_news_api news_api_key keywords topic_name st = (arts, st') /\
    Forall (api_article topic_name) arts.
Proof.
  revert news_api_key keywords topic_name st.
  intros key kws tp st. split.
  - intros [-> | ->]; reflexivity.
  - unfold NewsFetcher.fetch_news_api.
    destruct key as [[|c k]|];
      try (eexists _, _; split; [reflexivity | constructor]).
    destruct (newsapi_get _ _ (world st)) as [[items|e] w].
    + destruct (for_append World (api_item tp) items [] (mkSt w (seen st)))
        as [arts st'] eqn:E.
      exists arts, st'. split; [reflexivity|].
      apply (for_append_Forall (api_article tp)) in E
        as (new & -> & HF & _); [exact HF|].
      intros x st0 a st1. apply api_item_article.
    + eexists _, _. split; [reflexivity | constructor].
Qed.

(** X8. Whatever the feed holds, [fetch_rss_feed] never raises and returns
    at most 20 Articles; each has a non-empty title without surrounding
    white space, a non-empty link, the feed's name as source, the topic,
    a summary of at most 500 characters, a timezone-aware timestamp and
    the fingerprint of its title and link as id. *)
Theorem fetch_rss_feed_articles_well_formed :
  forall feed_url feed_name topic_name (st : St),
  exists arts st',
    fetch_rss_feed feed_url feed_name topic_name st = (arts, st') /\
    (length arts <= 20)%nat /\
    Forall (rss_article feed_name topic_name) arts.
Proof. exact fetch_rss_feed_spec. Qed.

(** X9. [fetch_news_api] never raises.  Without an API key ([None] or
    empty) it returns nothing and touches neither the network nor
    [seen_ids]; with a key, every Article it returns has a non-empty
    stripped title other than [[Removed]], a non-empty link, the topic,
    a summary of at most 500 characters and the fingerprint as id. *)
Theorem fetch_news_api_articles_well_formed :
  forall news_api_key keywords topic_name (st : St),
    (no_api_key news_api_key ->
     fetch_news_api news_api_key keywords topic_name st = ([], st)) /\
    exists arts st',
      fetch_news_api news_api_key keywords topic_name st = (arts, st') /\
      Forall (api_article topic_name) arts.
Proof. exact fetch_news_api_spec. Qed.

(** *** Entries that are skipped, entries that raise *)

(** X10. An entry whose title is missing, empty or only white space, or
    whose link is missing or empty, is skipped: nothing is appended, the
    clock is not read and [seen_ids] stays as it is. *)
Theorem rss_entry_skips_blank :
  forall feed_name topic_name entry (st : St),
    forallb isspace (default [] (entry_title entry)) = true \/
    default [] (entry_link entry) = [] ->
    rss_entry feed_name topic_name entry st = (Ok None, st).
Proof.
  intros name tp entry st H. unfold NewsFetcher.rss_entry.
  destruct H as [H|H].
  - apply strip_nil in H. rewrite H. reflexivity.
  - rewrite H. now destruct (strip _).
Qed.

Lemma rss_entry_unencodable feed_name topic_name entry (st : St) :
  strip (default [] (entry_title entry)) <> [] ->
  default [] (entry_link entry) <> [] ->
  forallb encodable
    (strip (default [] (entry_title entry)) ++ default [] (entry_link entry))
  = false ->
  exists e st', rss_entry feed_name topic_name entry st = (Raise e, st').
Proof.
  intros Ht Hl Henc. unfold NewsFetcher.rss_entry.
  pose proof (encode_total
                (strip (default [] (entry_title entry))
                 ++ default [] (entry_link entry))) as He.
  rewrite Henc in He.
  destruct (strip (default [] (entry_title entry))) as [|c t];
    [contradiction|].
  destruct (default [] (entry_link entry)) as [|c' l]; [contradiction|].
  unfold mbind, lift.
  destruct (_clean_google_news_url urlparse (c' :: l)) as [link'|e] eqn:Ec;
    [|eauto].
  apply clean_url_same in Ec. subst link'.
  destruct (_parse_published_date World clock strptime entry st)
    as [[dt|e] st1]; [|eauto].
  unfold new_Article, __post_init__, fingerprint. cbn [id title link].
  rewrite He. simpl. eauto.
Qed.

Lemma for_append_stops {X} (body : X -> M World (option Article)) x :
  (forall st, exists e st', body x st = (Raise e, st')) ->
  forall pre post articles st,
    for_append World body (pre ++ x :: post) articles st
    = for_append World body (pre ++ [x]) articles st.
Proof.
  intros Hx. induction pre as [|y pre IH]; intros post articles st; simpl.
  - destruct (Hx st) as (e & st' & ->). reflexivity.
  - destruct (body y st) as [[[a|]|e] st1]; auto.
Qed.

(** X11. An entry that cannot be made into an Article (here: its title or
    link holds a character that cannot be encoded) ends the loop over the
    feed: the Articles appended before it are returned, the entries after
    it are never looked at. *)
Theorem unencodable_entry_ends_feed :
  forall (parse1 parse2 : pystr -> World -> pyresult (list Entry) * World)
         feed_url feed_name topic_name (st : St) pre entry post w,
    strip (default [] (entry_title entry)) <> [] ->
    default [] (entry_link entry) <> [] ->
    forallb encodable
      (strip (default [] (entry_title entry)) ++ default [] (entry_link entry))
    = false ->
    parse1 feed_url (world st) = (Ok (pre ++ entry :: post), w) ->
    parse2 feed_url (world st) = (Ok (pre ++ [entry]), w) ->
    NewsFetcher.fetch_rss_feed World clock parse1 strptime urlparse
      feed_url feed_name topic_name st
    = NewsFetcher.fetch_rss_feed World clock parse2 strptime urlparse
        feed_url feed_name topic_name st.
Proof.
  intros parse1 parse2 url name tp st pre entry post w Ht Hl Henc E1 E2.
  unfold NewsFetcher.fetch_rss_feed. rewrite E1, E2.
  unfold slice_to. change (0 <=? 20) with true. cbv iota.
  change (Z.to_nat 20) with 20%nat.
  destruct (Nat.le_gt_cases 20 (length pre)) as [Hge|Hlt].
  - now rewrite !take_app_le by exact Hge.
  - rewrite !take_app_ge by lia.
    destruct (20 - length pre)%nat as [|n] eqn:En; [lia|]. cbn [take].
    rewrite take_nil. apply for_append_stops.
    intros st0. now apply rss_entry_unencodable.
Qed.

(** *** When [fetch_all] raises *)

Lemma filter_recent_raises cutoff l e :
  filter_recent cutoff l = Raise e -> e = TypeError.
Proof.
  induction l as [|a l IH]; simpl; [discriminate|].
  unfold ge. destruct (eqb (aware (published a)) (aware cutoff)); simpl.
  - destruct (filter_recent cutoff l) as [r|e']; simpl; [discriminate|].
    intros H. inversion H; subst. now apply IH.
  - intros H. now inversion H.
Qed.

Lemma filter_recent_aware cutoff l :
  aware cutoff = true ->
  Forall (fun a => aware (published a) = true) l ->
  exists kept, filter_recent cutoff l = Ok kept.
Proof.
  intros Hc. induction 1 as [|a l Ha _ [kept IH]]; simpl; [eauto|].
  unfold ge. rewrite Ha, Hc, IH. simpl. eauto.
Qed.

Lemma fetch_feeds_Forall (P : Article -> Prop) topic_name :
  (forall name a, rss_article name topic_name a -> P a) ->
  forall feeds acc (st : St) out st',
    Forall P acc ->
    fetch_feeds topic_name feeds acc st = (out, st') ->
    Forall P out.
Proof.
  intros HP. induction feeds as [|feed feeds IH]; intros acc st out st' Hacc H.
  - inversion H. now subst.
  - simpl in H. destruct (default [] (feed_url feed)) as [|c url].
    + eapply IH; eassumption.
    + destruct (fetch_rss_feed_spec (c :: url)
                  (default (str "Unknown") (feed_name feed)) topic_name st)
        as (arts & st1 & E & _ & HF).
      rewrite E in H. eapply IH; [|exact H].
      apply Forall_app. split; [exact Hacc|].
      eapply Forall_impl; [exact HF|]. intros a. apply HP.
Qed.

Lemma collect_topic_aware news_api_key t (st : St) arts st' :
  no_api_key news_api_key ->
  collect_topic news_api_key t st = (arts, st') ->
  Forall (fun a => aware (published a) = true) arts.
Proof.
  intros Hkey. unfold NewsFetcher.collect_topic.
  destruct (fetch_feeds _ (rss_feeds t) [] st) as [l st1] eqn:E.
  apply (fetch_feeds_Forall (fun a => aware (published a) = true)) in E;
    [| intros name a Ha; apply Ha | constructor].
  assert (Hapi : forall kws,
             fetch_news_api news_api_key kws
               (default (str "Unknown") (topic_name t)) st1 = ([], st1))
    by (intros kws; now apply fetch_news_api_spec).
  destruct (keywords t) as [|kw kws];
    [intros H; inversion H; now subst|].
  rewrite Hapi.
  destruct (length l <? 5)%nat; intros H; inversion H; subst;
    [now rewrite app_nil_r | exact E].
Qed.

Lemma fetch_topics_loaded_returns news_api_key cutoff max_articles :
  no_api_key news_api_key -> aware cutoff = true ->
  forall ts results (st : St),
  exists out st',
    fetch_topics_loaded news_api_key cutoff max_articles ts results st
    = (Ok out, st').
Proof.
  intros Hkey Hc. induction ts as [|t ts IH]; intros results st; simpl.
  - eexists _, _. reflexivity.
  - destruct (collect_topic news_api_key t st) as [l st1] eqn:E.
    apply (collect_topic_aware _ _ _ _ _ Hkey) in E.
    destruct (filter_recent_aware cutoff l Hc E) as [kept Hk].
    unfold post_process_loaded. rewrite Hk. simpl. apply IH.
Qed.

Lemma fetch_topics_loaded_raises news_api_key cutoff max_articles :
  forall ts results (st : St) e st',
    fetch_topics_loaded news_api_key cutoff max_articles ts results st
    = (Raise e, st') ->
    e = TypeError.
Proof.
  induction ts as [|t ts IH]; intros results st e st' H; simpl in H.
  - discriminate.
  - destruct (collect_topic news_api_key t st) as [l st1].
    unfold post_process_loaded in H.
    destruct (filter_recent cutoff l) as [kept|e'] eqn:E; simpl in H.
    + eapply IH. exact H.
    + inversion H; subst. eapply filter_recent_raises. exact E.
Qed.

Lemma sub_days_raises dt k e : sub_days dt k = Raise e -> e = OverflowError.
Proof.
  unfold sub_days.
  destruct (negb _); [intros H; now inversion H|].
  destruct (negb _); [intros H; now inversion H | discriminate].
Qed.

Lemma no_api_key_dec news_api_key :
  no_api_key news_api_key \/ ~ no_api_key news_api_key.
Proof.
  destruct news_api_key as [[|c k]|];
    [left; now right | right; intros [H|H]; discriminate | left; now left].
Qed.

(** On a configuration without [null] the loaded reading is the typed
    one. *)
Lemma fetch_topics_loaded_typed news_api_key cutoff max_articles :
  forall ts results (st : St),
    fetch_topics_loaded news_api_key cutoff (Some max_articles) ts results st
    = fetch_topics news_api_key cutoff max_articles ts results st.
Proof.
  induction ts as [|t ts IH]; intros results st; simpl; [reflexivity|].
  destruct (collect_topic news_api_key t st) as [l st1].
  change (post_process_loaded cutoff (Some max_articles) l)
    with (post_process cutoff max_articles l).
  destruct (post_process cutoff max_articles l); [apply IH | reflexivity].
Qed.

Lemma fetch_all_loaded_typed news_api_key config (st : St) :
  fetch_all_loaded news_api_key (Some (load config)) st
  = fetch_all news_api_key config st.
Proof.
  unfold NewsFetcher.fetch_all_loaded, NewsFetcher.fetch_all, load, mbind,
    now, lift.
  cbn [loaded_settings loaded_topics field_get loaded_max_articles_per_topic
       loaded_keep_days].
  destruct (clock (world st)) as [t w].
  destruct (settings config) as [[m|] [k|]]; simpl;
    (destruct (sub_days (mkdt t true) _); [|reflexivity]);
    apply fetch_topics_loaded_typed.
Qed.

(** X12. The topics configuration is read as [yaml.safe_load] left it:
    the file may be empty, and each of [settings], [topics], [keep_days]
    and [max_articles_per_topic] may be missing or hold [null].  Without
    an API key, [fetch_all] returns a mapping whenever the file is not
    empty, neither [settings] nor [keep_days] nor [topics] holds [null],
    and the cutoff [now - keep_days] is a date a [datetime] can hold:
    feeds that fail, entries that raise, dates that do not parse and a
    [null] [max_articles_per_topic] never make it raise. *)
Theorem fetch_all_returns_without_api_key :
  forall news_api_key config settings keep_days topics (st : St),
    no_api_key news_api_key ->
    field_get (loaded_settings config) (mkLoadedSettings Missing Missing)
    = Some settings ->
    field_get (loaded_keep_days settings) 2 = Some keep_days ->
    field_get (loaded_topics config) [] = Some topics ->
    -999999999 <= keep_days <= 999999999 ->
    0 <= fst (clock (world st)) - keep_days * usec_per_day <= max_instant ->
    exists results st',
      fetch_all_loaded news_api_key (Some config) st = (Ok results, st').
Proof.
  intros key config settings kd ts st Hkey Hs Hk Ht Hkd Hcut.
  unfold NewsFetcher.fetch_all_loaded, mbind, now, lift.
  rewrite Hs, Hk, Ht.
  destruct (clock (world st)) as [t w]. cbn [fst] in Hcut.
  rewrite (sub_days_ok (mkdt t true) _ Hkd Hcut).
  now apply fetch_topics_loaded_returns.
Qed.

(** X13. On the configuration as loaded (the file may be empty, each of
    [settings], [topics], [keep_days] and [max_articles_per_topic] may be
    missing or hold [null]): when [fetch_all] raises, it is an
    [AttributeError], an [OverflowError] or a [TypeError].  The
    [AttributeError] comes from an empty topics file or a [null]
    [settings], before the clock is read.  The [OverflowError] comes from
    the cutoff computation, before any feed is fetched and with [seen_ids]
    untouched.  The [TypeError] comes from a [null] [keep_days], a [null]
    [topics], or, possible only with an API key, from comparing a
    timestamp without time zone with the cutoff. *)
Theorem fetch_all_raises_only :
  forall news_api_key topics_config (st : St) e st',
    fetch_all_loaded news_api_key topics_config st = (Raise e, st') ->
    (e = AttributeError /\ st' = st /\
     (topics_config = None \/
      exists config,
        topics_config = Some config /\ loaded_settings config = NullValue))
    \/
    (e = OverflowError /\
     st' = mkSt (snd (clock (world st))) (seen st))
    \/
    (e = TypeError /\
     ((exists config settings,
          topics_config = Some config /\
          field_get (loaded_settings config) (mkLoadedSettings Missing Missing)
          = Some settings /\
          loaded_keep_days settings = NullValue) \/
      (exists config,
          topics_config = Some config /\ loaded_topics config = NullValue) \/
      ~ no_api_key news_api_key)).
Proof.
  intros key tc st e st'. unfold NewsFetcher.fetch_all_loaded.
  destruct tc as [config|];
    [|intros H; inversion H; subst; left; auto].
  destruct (field_get (loaded_settings config) _) as [settings|] eqn:Es.
  2:{ intros H. inversion H; subst. left. split; [reflexivity|].
      split; [reflexivity|]. right. exists config. split; [reflexivity|].
      destruct (loaded_settings config); try discriminate. reflexivity. }
  unfold mbind, now, lift.
  destruct (clock (world st)) as [t w]. cbn [snd].
  destruct (field_get (loaded_keep_days settings) 2) as [kd|] eqn:Ek.
  2:{ intros H. inversion H; subst. right. right. split; [reflexivity|].
      left. exists config, settings. split; [reflexivity|].
      split; [exact Es|].
      destruct (loaded_keep_days settings); try discriminate. reflexivity. }
  destruct (sub_days (mkdt t true) kd) as [cutoff|e0] eqn:E.
  2:{ intros H. inversion H; subst. right. left.
      split; [now apply sub_days_raises in E | reflexivity]. }
  destruct (field_get (loaded_topics config) []) as [ts|] eqn:Et.
  2:{ intros H. inversion H; subst. right. right. split; [reflexivity|].
      right. left. exists config. split; [reflexivity|].
      destruct (loaded_topics config); try discriminate. reflexivity. }
  intros H. right. right.
  split; [eapply fetch_topics_loaded_raises; exact H|].
  right. right. intros Hkey.
  assert (Hc : aware cutoff = true).
  { unfold sub_days in E.
    destruct (negb _); [discriminate|].
    destruct (negb _); [discriminate|]. now inversion E. }
  destruct (fetch_topics_loaded_returns key cutoff
              (field_get (loaded_max_articles_per_topic settings) 10)
              Hkey Hc ts [] (mkSt w (seen st)))
    as (out & st2 & Hok).
  rewrite Hok in H. discriminate H.
Qed.

(** *** The topics of the result *)

Lemma dict_set_keys_elem {V} (d : list (pystr * V)) k v k' :
  k' ∈ map fst (dict_set d k v) <-> k' = k \/ k' ∈ map fst d.
Proof.
  induction d as [|[k0 v0] d IH]; simpl.
  - rewrite list_elem_of_singleton. split; [auto | intros [H|H]; [exact H|]].
    inversion H.
  - case_bool_decide as Hk; simpl.
    + subst k0. rewrite !elem_of_cons. tauto.
    + rewrite !elem_of_cons, IH. tauto.
Qed.

Lemma dict_set_keys_NoDup {V} (d : list (pystr * V)) k v :
  NoDup (map fst d) -> NoDup (map fst (dict_set d k v)).
Proof.
  induction d as [|[k0 v0] d IH]; simpl; intros H.
  - apply NoDup_singleton.
  - apply NoDup_cons in H as [Hnot Hd]. case_bool_decide as Hk; simpl.
    + subst k0. now apply NoDup_cons.
    + apply NoDup_cons. split; [|now apply IH].
      rewrite dict_set_keys_elem. intros [->|Hin]; [congruence | contradiction].
Qed.

Lemma dict_set_length {V} (d : list (pystr * V)) k v :
  (length (dict_set d k v) <= S (length d))%nat.
Proof.
  induction d as [|[k0 v0] d IH]; simpl; [lia|].
  case_bool_decide; simpl; lia.
Qed.

Lemma fetch_topics_keys news_api_key cutoff max_articles :
  forall ts results (st : St) out st',
    NoDup (map fst results) ->
    fetch_topics news_api_key cutoff max_articles ts results st
    = (Ok out, st') ->
    NoDup (map fst out) /\
    (forall k, k ∈ map fst out <->
               k ∈ map fst results \/ k ∈ map topic_key ts) /\
    (length out <= length results + length ts)%nat.
Proof.
  induction ts as [|t ts IH]; intros results st out st' Hnd H; simpl in H.
  - inversion H; subst. split; [exact Hnd|]. split; [|lia].
    intros k. simpl. split; [auto | intros [Hk|Hk]; [exact Hk | inversion Hk]].
  - destruct (collect_topic news_api_key t st) as [l st1].
    destruct (post_process cutoff max_articles l) as [final|e];
      [|discriminate].
    apply IH in H as (Hn & Hk & Hl); [|now apply dict_set_keys_NoDup].
    split; [exact Hn|]. split.
    + intros k. rewrite Hk, dict_set_keys_elem. simpl.
      rewrite elem_of_cons. unfold topic_key. tauto.
    + pose proof (dict_set_length results
                    (default (str "Unknown") (topic_name t)) final).
      simpl. lia.
Qed.

(** X14. The mapping [fetch_all] returns has exactly the configured topic
    names as keys ("Unknown" for a topic without name), each once: topics
    that share a name share one entry, so there are at most as many
    entries as configured topics. *)
Theorem fetch_all_keys_are_topic_names :
  forall news_api_key config (st : St) results st',
    fetch_all news_api_key config st = (Ok results, st') ->
    NoDup (map fst results) /\
    (forall k, k ∈ map fst results <-> k ∈ map topic_key (topics config)) /\
    (length results <= length (topics config))%nat.
Proof.
  intros key config st results st' H.
  eapply fetch_all_unfold in H as (c & _ & H).
  apply fetch_topics_keys in H as (Hn & Hk & Hl); [|constructor].
  split; [exact Hn|]. split; [|simpl in Hl; lia].
  intros k. rewrite Hk. simpl. split; [intros [Hin|Hin] | auto].
  - inversion Hin.
  - exact Hin.
Qed.

Lemma total_articles_le (by_topic : list (pystr * list Article)) n :
  Forall (fun kv => (length (snd kv) <= n)%nat) by_topic ->
  (total_articles by_topic <= length by_topic * n)%nat.
Proof.
  unfold total_articles.
  induction 1 as [|kv l Hkv _ IH]; simpl; lia.
Qed.

(** X15. The total that [main] logs is bounded by the configuration:
    [fetch_all] returns at most [max_articles_per_topic] Articles for each
    configured topic. *)
Theorem total_articles_bounded :
  forall news_api_key config (st : St) results st',
    0 <= default 10 (max_articles_per_topic (settings config)) ->
    fetch_all news_api_key config st = (Ok results, st') ->
    Z.of_nat (total_articles results)
    <= Z.of_nat (length (topics config))
       * default 10 (max_articles_per_topic (settings config)).
Proof.
  intros key config st results st' Hmax H.
  set (m := default 10 (max_articles_per_topic (settings config))) in *.
  eapply fetch_all_unfold in H as (c & _ & H). fold m in H.
  pose proof H as Hkeys.
  apply fetch_topics_keys in Hkeys as (_ & _ & Hl); [|constructor].
  eapply (fetch_topics_Forall _ _ _ _ _ _
            (fun kv => (length (snd kv) <= Z.to_nat m)%nat)) in H;
    [| |constructor].
  - apply total_articles_le in H. simpl in Hl. nia.
  - intros l final k E. apply post_process_spec in E as (_ & _ & Hlen & _).
    simpl. specialize (Hlen Hmax). lia.
Qed.

(** *** The cut keeps the newest *)

(** X16. What the cut drops is never newer than what it keeps: an Article
    that passed the date filter and is not in the final list is at most
    as recent as every Article of the final list. *)
Theorem post_process_keeps_newest :
  forall cutoff max_articles (l final : list Article) a b,
    post_process cutoff max_articles l = Ok final ->
    a ∈ l -> instant cutoff <= instant (published a) ->
    a ∉ final -> b ∈ final ->
    instant (published a) <= instant (published b).
Proof.
  intros cutoff m l final a b H Ha Hrecent Hout Hb.
  unfold post_process in H.
  destruct (filter_recent cutoff l) as [kept|e] eqn:E; [|discriminate].
  simpl in H. inversion H; subst; clear H.
  pose proof (filter_recent_complete cutoff l kept a E Ha Hrecent) as Hk.
  pose proof (sort_published_desc_sorted kept) as Hs.
  assert (Has : a ∈ sort_published_desc kept)
    by now rewrite sort_published_desc_perm.
  set (s := sort_published_desc kept) in *.
  assert (Hn : exists n, slice_to s m = take n s)
    by (unfold slice_to; destruct (0 <=? m); eauto).
  destruct Hn as [n Hn]. rewrite Hn in *.
  rewrite <- (take_drop n s) in Has, Hs.
  apply elem_of_app in Has as [Has|Has]; [contradiction|].
  unfold newest_first in Hs.
  exact (StronglySorted_app_1_elem_of _ _ _ b a Hs Hb Has).
Qed.

(** *** [seen_ids] over a run *)

Lemma adds_id_ret_None : adds_id (ret World (@None Article)).
Proof. intros st r st' H. inversion H. reflexivity. Qed.

Lemma adds_id_dedup article : adds_id (dedup World article).
Proof.
  intros st r st'. unfold dedup. case_bool_decide as Hin; intros H;
    inversion H; reflexivity.
Qed.

Lemma adds_id_bind {A} (m : M World A) k :
  keeps_seen World m -> (forall x, adds_id (k x)) ->
  adds_id (mbind World m k).
Proof.
  intros Hm Hk st r st'. unfold mbind.
  destruct (m st) as [[x|e] st1] eqn:E; intros H.
  - rewrite <- (Hm _ _ _ E). eapply Hk. exact H.
  - inversion H; subst. eapply Hm. exact E.
Qed.

Lemma adds_id_rss_entry feed_name topic_name entry :
  adds_id (rss_entry feed_name topic_name entry).
Proof.
  unfold NewsFetcher.rss_entry.
  destruct (strip _) as [|c t]; [apply adds_id_ret_None|].
  destruct (default [] (entry_link entry)) as [|c' l];
    [apply adds_id_ret_None|].
  apply adds_id_bind; [apply keeps_seen_lift|]. intros link.
  apply adds_id_bind; [apply keeps_seen_parse|]. intros published.
  apply adds_id_bind; [apply keeps_seen_lift|]. intros article.
  apply adds_id_dedup.
Qed.

Lemma adds_id_api_item topic_name item : adds_id (api_item topic_name item).
Proof.
  unfold NewsFetcher.api_item.
  apply adds_id_bind; [apply keeps_seen_lift|]. intros [|c t];
    [apply adds_id_ret_None|].
  destruct (match item_url item with Str s => s | _ => [] end) as [|c' l];
    [apply adds_id_ret_None|].
  case_bool_decide; [apply adds_id_ret_None|].
  apply adds_id_bind; [apply keeps_seen_now|]. intros pub_date.
  apply adds_id_bind; [apply keeps_seen_lift|]. intros pub_date'.
  apply adds_id_bind; [apply keeps_seen_lift|]. intros source.
  apply adds_id_bind; [apply keeps_seen_lift|]. intros summary.
  apply adds_id_bind; [apply keeps_seen_lift|]. intros article.
  apply adds_id_dedup.
Qed.

Lemma ids_app (l1 l2 : list Article) (s : gset pystr) :
  list_to_set (map id l2) ∪ (list_to_set (map id l1) ∪ s)
  = list_to_set (map id (l1 ++ l2)) ∪ s.
Proof.
  rewrite map_app, list_to_set_app_L.
  rewrite (assoc_L (∪)). f_equal. apply (comm_L (∪)).
Qed.

Lemma for_append_seen {X} (body : X -> M World (option Article)) :
  (forall x, adds_id (body x)) ->
  forall xs articles st out st',
    for_append World body xs articles st = (out, st') ->
    exists new,
      out = articles ++ new /\
      seen st' = list_to_set (map id new) ∪ seen st.
Proof.
  intros Hbody. induction xs as [|x xs IH]; intros articles st out st' H.
  - inversion H; subst. exists []. rewrite app_nil_r.
    split; [reflexivity|]. simpl. now rewrite (left_id_L ∅ (∪)).
  - simpl in H. destruct (body x st) as [[[a|]|e] st1] eqn:E;
      pose proof (Hbody x _ _ _ E) as Hs; simpl in Hs.
    + apply IH in H as (new & -> & Hnew).
      exists (a :: new). rewrite <- app_assoc. split; [reflexivity|].
      rewrite Hnew, Hs.
      change (a :: new) with ([a] ++ new). rewrite <- ids_app.
      simpl. now rewrite (right_id_L ∅ (∪)).
    + apply IH in H as (new & -> & Hnew).
      exists new. split; [reflexivity|]. now rewrite Hnew, Hs.
    + inversion H; subst. exists []. rewrite app_nil_r.
      split; [reflexivity|]. simpl. now rewrite (left_id_L ∅ (∪)).
Qed.

Lemma fetch_rss_feed_seen url name topic_name (st : St) arts st' :
  fetch_rss_feed url name topic_name st = (arts, st') ->
  seen st' = list_to_set (map id arts) ∪ seen st.
Proof.
  unfold NewsFetcher.fetch_rss_feed.
  destruct (feedparser_parse url (world st)) as [[entries|e] w]; intros H.
  - apply for_append_seen in H as (new & -> & Hnew);
      [exact Hnew | intros x; apply adds_id_rss_entry].
  - inversion H; subst. simpl. now rewrite (left_id_L ∅ (∪)).
Qed.

Lemma fetch_news_api_seen key kws topic_name (st : St) arts st' :
  fetch_news_api key kws topic_name st = (arts, st') ->
  seen st' = list_to_set (map id arts) ∪ seen st.
Proof.
  unfold NewsFetcher.fetch_news_api.
  destruct key as [[|c k]|];
    try (intros H; inversion H; subst; simpl;
         now rewrite (left_id_L ∅ (∪))).
  destruct (newsapi_get _ _ (world st)) as [[items|e] w]; intros H.
  - apply for_append_seen in H as (new & -> & Hnew);
      [exact Hnew | intros x; apply adds_id_api_item].
  - inversion H; subst. simpl. now rewrite (left_id_L ∅ (∪)).
Qed.

Lemma fetch_feeds_seen topic_name : forall feeds acc (st : St) out st',
  fetch_feeds topic_name feeds acc st = (out, st') ->
  exists new,
    out = acc ++ new /\ seen st' = list_to_set (map id new) ∪ seen st.
Proof.
  induction feeds as [|feed feeds IH]; intros acc st out st' H.
  - inversion H; subst. exists []. rewrite app_nil_r.
    split; [reflexivity|]. simpl. now rewrite (left_id_L ∅ (∪)).
  - simpl in H. destruct (default [] (feed_url feed)) as [|c url].
    + now apply IH.
    + destruct (NewsFetcher.fetch_rss_feed _ _ _ _ _ _ _ _ st)
        as [arts st1] eqn:E.
      apply fetch_rss_feed_seen in E.
      apply IH in H as (new & -> & Hnew).
      exists (arts ++ new). rewrite app_assoc. split; [reflexivity|].
      rewrite Hnew, E. apply ids_app.
Qed.

Lemma collect_topic_seen key t (st : St) arts st' :
  collect_topic key t st = (arts, st') ->
  seen st' = list_to_set (map id arts) ∪ seen st.
Proof.
  unfold NewsFetcher.collect_topic.
  destruct (fetch_feeds _ (rss_feeds t) [] st) as [l st1] eqn:E.
  apply fetch_feeds_seen in E as (new & -> & Hnew). simpl.
  destruct (keywords t) as [|kw kws];
    [intros H; inversion H; now subst|].
  destruct (length new <? 5)%nat;
    [|intros H; inversion H; now subst].
  destruct (NewsFetcher.fetch_news_api _ _ _ _ _ _ _ st1) as [api st2] eqn:E2.
  apply fetch_news_api_seen in E2.
  intros H; inversion H; subst. rewrite E2, Hnew. apply ids_app.
Qed.

Lemma fetch_topics_seen_grows key cutoff max_articles :
  forall ts results (st : St) r st',
    fetch_topics key cutoff max_articles ts results st = (r, st') ->
    seen st ⊆ seen st'.
Proof.
  induction ts as [|t ts IH]; intros results st r st' H; simpl in H.
  - inversion H. reflexivity.
  - destruct (collect_topic key t st) as [l st1] eqn:E.
    apply collect_topic_seen in E.
    assert (Hs : seen st ⊆ seen st1)
      by (rewrite E; apply union_subseteq_r).
    destruct (post_process cutoff max_articles l) as [final|e].
    + apply IH in H. now transitivity (seen st1).
    + inversion H; subst. exact Hs.
Qed.

(** X17. While a topic is collected, [seen_ids] grows by exactly the ids
    of the Articles collected, also when a feed fails half way; over a
    whole [fetch_all], whatever its outcome, ids are only ever added.  An
    Article that the date filter or the cut drops afterwards therefore
    still blocks its id for the rest of the run. *)
Theorem seen_ids_grows_by_collected_ids :
  forall news_api_key config t (st : St),
    seen (snd (collect_topic news_api_key t st))
    = list_to_set (map id (fst (collect_topic news_api_key t st))) ∪ seen st
    /\
    seen st ⊆ seen (snd (fetch_all news_api_key config st)).
Proof.
  intros key config t st. split.
  - destruct (collect_topic key t st) as [arts st'] eqn:E.
    now apply collect_topic_seen in E.
  - unfold NewsFetcher.fetch_all, mbind, now, lift.
    destruct (clock (world st)) as [t0 w].
    destruct (sub_days (mkdt t0 true) _) as [cutoff|e]; [|reflexivity].
    destruct (NewsFetcher.fetch_topics _ _ _ _ _ _ _ _ _ _ _ _ _)
      as [r st'] eqn:E.
    now apply fetch_topics_seen_grows in E.
Qed.

(** X18. Two runs of [fetch_all] on the same fetcher never return the same
    Article twice: every id returned by the second run differs from every
    id returned by the first. *)
Theorem consecutive_runs_return_different_ids :
  forall key1 key2 config1 config2 (st : St) results1 st1 results2 st2,
    fetch_all key1 config1 st = (Ok results1, st1) ->
    fetch_all key2 config2 st1 = (Ok results2, st2) ->
    forall a1 a2,
      a1 ∈ all_articles results1 -> a2 ∈ all_articles results2 ->
      id a1 <> id a2.
Proof.
  intros key1 key2 config1 config2 st r1 st1 r2 st2 H1 H2 a1 a2 Ha1 Ha2.
  eapply fetch_all_unfold in H1 as (c1 & _ & H1).
  eapply fetch_all_unfold in H2 as (c2 & _ & H2).
  eapply (fetch_topics_fresh _ _ _ _ _ _ _ _ _ (seen st)) in H1
    as (_ & _ & Hin1); [|now apply fresh_nil].
  eapply (fetch_topics_fresh _ _ _ _ _ _ _ _ _ (seen st1)) in H2
    as (_ & _ & Hin2); [|now apply fresh_nil].
  destruct (Hin1 a1 Ha1) as [_ Hseen]. destruct (Hin2 a2 Ha2) as [Hnew _].
  intros E. rewrite E in Hseen. contradiction.
Qed.

End FetcherExtra.

(** ** The extra properties at concrete inputs *)

Section ExtraExamples.
Import Py Datetime Json NewsFetcher Summarizer Spec Props.

Lemma summarize_all_failing_is_skip_witness :
  fst (summarize_all unit Examples.create_raises
         [(Examples.nba, [Examples.a1; Examples.a2])] tt)
  = Ok (Main.skip_summarize [(Examples.nba, [Examples.a1; Examples.a2])]).
Proof.
  apply (summarize_all_failing_is_skip Examples.create_raises).
  intros batch w. exact I.
Defined.

Lemma summarize_batch_sends_each_article_once_witness :
  concat (snd (summarize_batch _ (recording (fun _ => NoContent))
                 [Examples.a1; Examples.a2; Examples.a1] 2 []))
  = [Examples.a1; Examples.a2; Examples.a1] /\
  Forall (fun batch =>
            (1 <= length batch)%nat /\ Z.of_nat (length batch) <= 2)
         (snd (summarize_batch _ (recording (fun _ => NoContent))
                 [Examples.a1; Examples.a2; Examples.a1] 2 [])).
Proof.
  apply (summarize_batch_sends_each_article_once (fun _ => NoContent)
           [Examples.a1; Examples.a2; Examples.a1] 2).
  lia.
Defined.

Lemma prompt_number_is_response_index_witness :
  (exists pre post,
      _create_prompt [Examples.a1; Examples.a2] =
        pre
        ++ [10] ++ str "Article 2:" ++ [10]
        ++ str "Title: Celtics lose" ++ [10]
        ++ str "Source: ESPN" ++ [10]
        ++ str "Summary: report" ++ [10]
        ++ str "---" ++ [10]
        ++ post) /\
  item_step [Examples.a1; Examples.a2]
    (PyDict [(str "index", PyInt 2); (str "summary", PyStr (str "S"))])
  = Ok (Some (mkSummarized Examples.a2 (PyStr (str "Celtics lose"))
                (PyStr (str "S")) (PyList []))).
Proof.
  destruct (prompt_number_is_response_index
              [Examples.a1; Examples.a2] 1 Examples.a2 eq_refl)
    as ((pre & post & Hprompt) & _ & Hitem).
  split.
  - exists pre, post.
    exact Hprompt.
  - refine (eq_trans
              (Hitem [(str "index", PyInt 2);
                      (str "summary", PyStr (str "S"))] _) _);
      vm_compute; reflexivity.
Defined.

Lemma strip_tz_abbrev_drops_abbreviation_witness :
  strip_tz_abbrev (str "Tue, 02 Jan 2024 03:04:05" ++ str " " ++ str "GMT")
  = str "Tue, 02 Jan 2024 03:04:05".
Proof.
  apply (strip_tz_abbrev_drops_abbreviation
           (str "Tue, 02 Jan 2024 03:04:05") (str " ") (str "GMT")).
  - vm_compute. reflexivity.
  - vm_compute. discriminate.
  - vm_compute. reflexivity.
  - vm_compute. reflexivity.
  - left. vm_compute. reflexivity.
Defined.

Lemma fetch_news_api_articles_well_formed_witness :
  NewsFetcher.fetch_news_api nat Examples.clock Examples.newsapi_get_three
    Examples.fromisoformat (Some []) [str "nba"] Examples.nba (mkSt O ∅)
  = ([], mkSt O ∅).
Proof.
  apply (proj1 (fetch_news_api_articles_well_formed Examples.clock
                  Examples.newsapi_get_three Examples.fromisoformat
                  (Some []) [str "nba"] Examples.nba (mkSt O ∅))).
  right. reflexivity.
Defined.

Lemma rss_entry_skips_blank_witness :
  NewsFetcher.rss_entry nat Examples.clock Examples.strptime
    Examples.urlparse (str "ESPN") Examples.nba Examples.entry_b (mkSt O ∅)
  = (Ok None, mkSt O ∅).
Proof.
  apply (rss_entry_skips_blank Examples.clock Examples.strptime
           Examples.urlparse (str "ESPN") Examples.nba Examples.entry_b).
  left. vm_compute. reflexivity.
Defined.

Lemma unencodable_entry_ends_feed_witness :
  NewsFetcher.fetch_rss_feed nat Examples.clock
    (fun _ w => (Ok [Examples.entry_a; Examples.entry_surrogate;
                     Examples.entry_c], S w))
    Examples.strptime Examples.urlparse
    (str "http://feed/1") (str "ESPN") Examples.nba (mkSt O ∅)
  = NewsFetcher.fetch_rss_feed nat Examples.clock
      (fun _ w => (Ok [Examples.entry_a; Examples.entry_surrogate], S w))
      Examples.strptime Examples.urlparse
      (str "http://feed/1") (str "ESPN") Examples.nba (mkSt O ∅).
Proof.
  apply (unencodable_entry_ends_feed Examples.clock Examples.strptime
           Examples.urlparse _ _ _ _ _ _
           [Examples.entry_a] Examples.entry_surrogate [Examples.entry_c]
           1%nat).
  - vm_compute. discriminate.
  - vm_compute. discriminate.
  - vm_compute. reflexivity.
  - reflexivity.
  - reflexivity.
Defined.

Lemma fetch_all_returns_without_api_key_witness :
  exists results st',
    NewsFetcher.fetch_all_loaded nat Examples.clock Examples.feedparser_parse
      Examples.newsapi_get Examples.strptime Examples.fromisoformat
      Examples.urlparse None (Some Examples.config_null_max) (mkSt O ∅)
    = (Ok results, st').
Proof.
  apply (fetch_all_returns_without_api_key Examples.clock
           Examples.feedparser_parse Examples.newsapi_get Examples.strptime
           Examples.fromisoformat Examples.urlparse None
           Examples.config_null_max (mkLoadedSettings NullValue (Val 2)) 2
           [mkTopic (Some Examples.nba) [] [Examples.feed1]] (mkSt O ∅)).
  - left. reflexivity.
  - reflexivity.
  - reflexivity.
  - reflexivity.
  - lia.
  - vm_compute. split; discriminate.
Defined.

Lemma fetch_all_raises_only_witness :
  NewsFetcher.fetch_all_loaded nat Examples.clock Examples.feedparser_parse
    Examples.newsapi_get Examples.strptime Examples.fromisoformat
    Examples.urlparse None (Some Examples.config_null_settings) (mkSt O ∅)
  = (Raise AttributeError, mkSt O ∅) /\
  loaded_settings Examples.config_null_settings = NullValue.
Proof.
  assert (E : NewsFetcher.fetch_all_loaded nat Examples.clock
                Examples.feedparser_parse Examples.newsapi_get
                Examples.strptime Examples.fromisoformat Examples.urlparse
                None (Some Examples.config_null_settings) (mkSt O ∅)
              = (Raise AttributeError, mkSt O ∅))
    by (vm_compute; reflexivity).
  split; [exact E|].
  destruct (fetch_all_raises_only Examples.clock Examples.feedparser_parse
              Examples.newsapi_get Examples.strptime Examples.fromisoformat
              Examples.urlparse None (Some Examples.config_null_settings)
              (mkSt O ∅) AttributeError (mkSt O ∅) E)
    as [(_ & _ & [H | (c & Hc & Hn)]) | [(H & _) | (H & _)]].
  - discriminate H.
  - injection Hc as <-. exact Hn.
  - discriminate H.
  - discriminate H.
Defined.

Lemma fetch_all_keys_are_topic_names_witness :
  exists results st',
    Examples.fetch_all None = (Ok results, st') /\
    map fst results = [Examples.nba] /\
    NoDup (map fst results) /\
    (length results <= 1)%nat.
Proof.
  assert (E : exists results st',
             Examples.fetch_all None = (Ok results, st') /\
             map fst results = [Examples.nba]).
  { eexists _, _. split; vm_compute; reflexivity. }
  destruct E as (results & st' & E & Hk).
  exists results, st'. split; [exact E|]. split; [exact Hk|].
  destruct (fetch_all_keys_are_topic_names Examples.clock
              Examples.feedparser_parse Examples.newsapi_get
              Examples.strptime Examples.fromisoformat Examples.urlparse
              None (Examples.config None) (mkSt O ∅) results st' E)
    as (Hn & _ & Hl).
  split; [exact Hn | exact Hl].
Defined.

Lemma total_articles_bounded_witness :
  exists results st',
    Examples.fetch_all (Some 1) = (Ok results, st') /\
    Z.of_nat (total_articles results)
    <= Z.of_nat (length (topics (Examples.config (Some 1))))
       * default 10 (max_articles_per_topic
                       (settings (Examples.config (Some 1)))).
Proof.
  assert (E : exists results st',
             Examples.fetch_all (Some 1) = (Ok results, st') /\ True).
  { eexists _, _. split; [vm_compute; reflexivity | exact I]. }
  destruct E as (results & st' & E & _).
  exists results, st'. split; [exact E|].
  exact (total_articles_bounded Examples.clock Examples.feedparser_parse
           Examples.newsapi_get Examples.strptime Examples.fromisoformat
           Examples.urlparse None (Examples.config (Some 1)) (mkSt O ∅)
           results st' ltac:(vm_compute; discriminate) E).
Defined.

Lemma post_process_keeps_newest_witness :
  post_process (mkdt 0 true) 1 [Examples.a1; Examples.a2]
  = Ok [Examples.a2] /\
  instant (published Examples.a1) <= instant (published Examples.a2).
Proof.
  assert (E : post_process (mkdt 0 true) 1 [Examples.a1; Examples.a2]
              = Ok [Examples.a2]) by (vm_compute; reflexivity).
  split; [exact E|].
  apply (post_process_keeps_newest _ _ _ _ Examples.a1 Examples.a2 E).
  - constructor.
  - vm_compute. discriminate.
  - intros H. apply list_elem_of_singleton in H.
    apply (f_equal link) in H. vm_compute in H. discriminate H.
  - constructor.
Defined.

Lemma consecutive_runs_return_different_ids_witness :
  exists r1 st1 r2 st2,
    NewsFetcher.fetch_all nat Examples.clock Examples.feedparser_parse_two
      Examples.newsapi_get Examples.strptime Examples.fromisoformat
      Examples.urlparse None (Examples.config None) (mkSt O ∅)
    = (Ok r1, st1) /\
    NewsFetcher.fetch_all nat Examples.clock Examples.feedparser_parse_two
      Examples.newsapi_get Examples.strptime Examples.fromisoformat
      Examples.urlparse None Examples.config_feed2 st1
    = (Ok r2, st2) /\
    map title (all_articles r1) = [str "Celtics lose"; str "Lakers win"] /\
    map title (all_articles r2) = [str "Knicks win"] /\
    forall a1 a2,
      a1 ∈ all_articles r1 -> a2 ∈ all_articles r2 -> id a1 <> id a2.
Proof.
  assert (E : exists r1 st1 r2 st2,
             NewsFetcher.fetch_all nat Examples.clock
               Examples.feedparser_parse_two Examples.newsapi_get
               Examples.strptime Examples.fromisoformat Examples.urlparse
               None (Examples.config None) (mkSt O ∅)
             = (Ok r1, st1) /\
             NewsFetcher.fetch_all nat Examples.clock
               Examples.feedparser_parse_two Examples.newsapi_get
               Examples.strptime Examples.fromisoformat Examples.urlparse
               None Examples.config_feed2 st1
             = (Ok r2, st2) /\
             map title (all_articles r1)
             = [str "Celtics lose"; str "Lakers win"] /\
             map title (all_articles r2) = [str "Knicks win"]).
  { eexists _, _, _, _.
    split; [vm_compute; reflexivity|].
    split; [vm_compute; reflexivity|].
    split; vm_compute; reflexivity. }
  destruct E as (r1 & st1 & r2 & st2 & E1 & E2 & H1 & H2).
  exists r1, st1, r2, st2.
  split; [exact E1|]. split; [exact E2|].
  split; [exact H1|]. split; [exact H2|].
  exact (consecutive_runs_return_different_ids Examples.clock
           Examples.feedparser_parse_two Examples.newsapi_get
           Examples.strptime Examples.fromisoformat Examples.urlparse
           None None (Examples.config None) Examples.config_feed2
           (mkSt O ∅) r1 st1 r2 st2 E1 E2).
Defined.

(** The loaded configuration on the cases a typed [Config] cannot hold. *)
Example fetch_all_loaded_empty_file :
  NewsFetcher.fetch_all_loaded nat Examples.clock Examples.feedparser_parse
    Examples.newsapi_get Examples.strptime Examples.fromisoformat
    Examples.urlparse None None (mkSt O ∅)
  = (Raise AttributeError, mkSt O ∅).
Proof. vm_compute. reflexivity. Qed.

(** A [keep_days] beyond what a [timedelta] holds. *)
Example fetch_all_keep_days_overflow :
  NewsFetcher.fetch_all nat Examples.clock Examples.feedparser_parse
    Examples.newsapi_get Examples.strptime Examples.fromisoformat
    Examples.urlparse None Examples.config_overflow (mkSt O ∅)
  = (Raise OverflowError, mkSt 1%nat ∅).
Proof. vm_compute. reflexivity. Qed.

(** [keep_days: null]: the clock was read when [timedelta] raises. *)
Example fetch_all_loaded_null_keep_days :
  NewsFetcher.fetch_all_loaded nat Examples.clock Examples.feedparser_parse
    Examples.newsapi_get Examples.strptime Examples.fromisoformat
    Examples.urlparse None
    (Some (mkLoadedConfig Missing (Val (mkLoadedSettings Missing NullValue))))
    (mkSt O ∅)
  = (Raise TypeError, mkSt 1%nat ∅).
Proof. vm_compute. reflexivity. Qed.

Example fetch_all_loaded_null_topics :
  NewsFetcher.fetch_all_loaded nat Examples.clock Examples.feedparser_parse
    Examples.newsapi_get Examples.strptime Examples.fromisoformat
    Examples.urlparse None (Some (mkLoadedConfig NullValue Missing))
    (mkSt O ∅)
  = (Raise TypeError, mkSt 1%nat ∅).
Proof. vm_compute. reflexivity. Qed.

(** [max_articles_per_topic: null]: nothing is cut. *)
Example fetch_all_loaded_null_max :
  exists a_c a_a st',
    NewsFetcher.fetch_all_loaded nat Examples.clock Examples.feedparser_parse
      Examples.newsapi_get Examples.strptime Examples.fromisoformat
      Examples.urlparse None (Some Examples.config_null_max) (mkSt O ∅)
    = (Ok [(Examples.nba, [a_c; a_a])], st') /\
    title a_c = str "Celtics lose" /\ title a_a = str "Lakers win".
Proof.
  eexists _, _, _. split; [vm_compute; reflexivity|].
  split; vm_compute; reflexivity.
Qed.

End ExtraExamples.
